(* ===================================================================== *)
(* TalentMatch-NLP: a shallow embedding of the matching engine           *)
(*                                                                       *)
(*   app/services/admin_parameter_service.py   (Module AdminParams)      *)
(*   app/api/enhanced_admin_router.py          (Module AdminParams)      *)
(*   app/services/embedding_service.py         (Module Embedding)        *)
(*   app/api/match_router.py                   (Modules Reindex, Cosine, *)
(*                                              Matching)                *)
(*   app/api/job_router.py, web_app.py,                                  *)
(*   demo_app.py                               (Module Matching)         *)
(*                                                                       *)
(* Configuration values are Python ints and binary64 floats, with the    *)
(* float arithmetic of the validation carried out on primitive floats.   *)
(* The skill-overlap scores are exact rationals (Q), the embeddings used *)
(* for the cosine are real vectors (R), index distances are exact.       *)
(* Python dicts are stdpp finite maps; exceptions are explicit results.  *)
(* A method that a handler looks up on the embedding service and that    *)
(* the class does not define is a failed lookup (AttributeError).        *)
(* ===================================================================== *)

From Stdlib Require Import ZArith QArith Qabs Qround Lia Lra Ascii String.
From Stdlib Require Import Reals Qreals Sorted Psatz.
From Stdlib Require Floats.
From stdpp Require Import gmap strings list.

Open Scope string_scope.
Open Scope list_scope.

(* ===================================================================== *)
(* Python string operations                                              *)
(* ===================================================================== *)

Module Text.

(** [str.isspace] on one character, for ASCII text: space, the controls
    TAB LF VT FF CR and the separators FS GS RS US. *)
Definition is_space (c : ascii) : bool :=
  let n := nat_of_ascii c in
  (n =? 32)%nat || ((9 <=? n)%nat && (n <=? 13)%nat)
  || ((28 <=? n)%nat && (n <=? 31)%nat).

(** [str.lower] on ASCII text. *)
Definition lower_char (c : ascii) : ascii :=
  let n := nat_of_ascii c in
  if ((65 <=? n)%nat && (n <=? 90)%nat)%bool then ascii_of_nat (n + 32) else c.

Fixpoint lower (s : string) : string :=
  match s with
  | EmptyString => EmptyString
  | String c s' => String (lower_char c) (lower s')
  end.

Fixpoint lstrip (s : string) : string :=
  match s with
  | EmptyString => EmptyString
  | String c s' => if is_space c then lstrip s' else s
  end.

Fixpoint rstrip (s : string) : string :=
  match s with
  | EmptyString => EmptyString
  | String c s' =>
      match rstrip s' with
      | EmptyString => if is_space c then EmptyString else String c EmptyString
      | r => String c r
      end
  end.

(** [s.strip()] *)
Definition strip (s : string) : string := rstrip (lstrip s).

(** [sep.join(parts)] *)
Fixpoint join (sep : string) (parts : list string) : string :=
  match parts with
  | [] => EmptyString
  | [p] => p
  | p :: rest => p +:+ sep +:+ join sep rest
  end.

(** [s[:n]] *)
Fixpoint take_chars (n : nat) (s : string) : string :=
  match n, s with
  | O, _ => EmptyString
  | _, EmptyString => EmptyString
  | S n', String c s' => String c (take_chars n' s')
  end.

(** [needle in hay] for strings. *)
Fixpoint contains (needle hay : string) : bool :=
  String.prefix needle hay ||
  match hay with
  | EmptyString => false
  | String _ hay' => contains needle hay'
  end.

(** Every character is white space: what [not s.strip()] tests. *)
Fixpoint all_space (s : string) : bool :=
  match s with
  | EmptyString => true
  | String c s' => is_space c && all_space s'
  end.

Lemma lstrip_all_space s : all_space s = true -> lstrip s = EmptyString.
Proof.
  induction s as [|c s IH]; simpl; [done|].
  intros [Hc Hs]%andb_true_iff. rewrite Hc. auto.
Qed.

Lemma lstrip_head s :
  match lstrip s with
  | EmptyString => all_space s = true
  | String c _ => is_space c = false
  end.
Proof.
  induction s as [|c s IH]; simpl; [done|].
  destruct (is_space c) eqn:Hc; [|done].
  destruct (lstrip s); simpl; [done|exact IH].
Qed.

Lemma rstrip_empty s : rstrip s = EmptyString -> all_space s = true.
Proof.
  induction s as [|c s IH]; simpl; [done|].
  destruct (rstrip s); [|discriminate].
  destruct (is_space c); [|discriminate]. intros _. by rewrite IH.
Qed.

(** [strip] yields the empty string exactly on white-space-only text. *)
Lemma strip_empty_iff s : strip s = EmptyString <-> all_space s = true.
Proof.
  unfold strip. split.
  - intros H. apply rstrip_empty in H.
    pose proof (lstrip_head s) as Hh.
    destruct (lstrip s) as [|c r]; [done|].
    simpl in H. rewrite Hh in H. discriminate.
  - intros H. by rewrite lstrip_all_space.
Qed.

Lemma all_space_app (a b : string) :
  all_space (a +:+ b) = all_space a && all_space b.
Proof.
  induction a as [|c a IH]; simpl; [done|]. by rewrite IH, andb_assoc.
Qed.

Lemma all_space_join (parts : list string) :
  all_space (join " " parts) = forallb all_space parts.
Proof.
  induction parts as [|p rest IH]; [done|].
  destruct rest as [|q rest].
  - simpl. by rewrite andb_true_r.
  - change (join " " (p :: q :: rest))
      with (p +:+ " " +:+ join " " (q :: rest)).
    rewrite !all_space_app, IH. reflexivity.
Qed.

End Text.

(* ===================================================================== *)
(* Python numbers                                                        *)
(* ===================================================================== *)

Module Numeric.

(** Rounding to the nearest integer, halves to the even neighbour. *)
Definition round_half_even (y : Q) : Z :=
  let f := Qfloor y in
  let r := (y - inject_Z f)%Q in
  match (r ?= 1 # 2)%Q with
  | Lt => f
  | Gt => (f + 1)%Z
  | Eq => if Z.even f then f else (f + 1)%Z
  end.

(** [round(x, ndigits)] on an exact value. *)
Definition py_round (x : Q) (ndigits : nat) : Q :=
  let scale := inject_Z (10 ^ Z.of_nat ndigits) in
  (inject_Z (round_half_even (x * scale)) / scale)%Q.

(** [a < b] on exact values. *)
Definition Qlt_bool (a b : Q) : bool := negb (Qle_bool b a).

(** [len(a) / len(b)]-style true division of two counts. *)
Definition ratio (a b : nat) : Q :=
  (inject_Z (Z.of_nat a) / inject_Z (Z.of_nat b))%Q.


(** A Python number as it arrives from JSON: an int of any size or a
    binary64 float. *)
Inductive num :=
| NInt (z : Z)
| NFloat (f : PrimFloat.float).

(** [float(z)]: the nearest binary64 value, halves to the even
    neighbour; [None] is the OverflowError for an int that is too
    large. *)
Definition float_of_int (z : Z) : option PrimFloat.float :=
  match SpecFloat.binary_normalize FloatOps.prec FloatOps.emax z 0 false with
  | SpecFloat.S754_infinity _ => None
  | sf => Some (FloatOps.SF2Prim sf)
  end.

(** The float operand that mixed arithmetic works on. *)
Definition to_float (a : num) : option PrimFloat.float :=
  match a with
  | NInt z => float_of_int z
  | NFloat f => Some f
  end.

(** [a + b]: exact on two ints; otherwise the int operand is converted
    and the two floats are added. *)
Definition py_add (a b : num) : option num :=
  match a, b with
  | NInt x, NInt y => Some (NInt (x + y))
  | _, _ =>
      match to_float a, to_float b with
      | Some f, Some g => Some (NFloat (PrimFloat.add f g))
      | _, _ => None
      end
  end.

(** [sum(l)]: the additions are made from left to right, starting at
    the int 0. (From CPython 3.12 on, [sum] compensates the rounding
    errors of float additions; the plain additions are the ones of the
    earlier versions.) *)
Definition py_sum (l : list num) : option num :=
  fold_left (fun acc w => match acc with
                          | Some a => py_add a w
                          | None => None
                          end)
            l (Some (NInt 0)).

(** How an int compares with a float: on the exact values, with no
    conversion. [None] is the unordered case of NaN. *)
Definition cmp_int_float (z : Z) (f : PrimFloat.float) : option comparison :=
  match FloatOps.Prim2SF f with
  | SpecFloat.S754_nan => None
  | SpecFloat.S754_infinity s => Some (if s then Gt else Lt)
  | SpecFloat.S754_zero _ => Some (z ?= 0)%Z
  | SpecFloat.S754_finite s m e =>
      let v := if s then Z.neg m else Z.pos m in
      Some (if (0 <=? e)%Z then (z ?= v * 2 ^ e)%Z
            else (z * 2 ^ (- e) ?= v)%Z)
  end.

(** [a <= b] *)
Definition py_le (a b : num) : bool :=
  match a, b with
  | NInt x, NInt y => (x <=? y)%Z
  | NFloat f, NFloat g => PrimFloat.leb f g
  | NInt x, NFloat g =>
      match cmp_int_float x g with
      | Some Lt | Some Eq => true
      | _ => false
      end
  | NFloat f, NInt y =>
      match cmp_int_float y f with
      | Some Gt | Some Eq => true
      | _ => false
      end
  end.

End Numeric.

(* ===================================================================== *)
(* Admin parameters                                                      *)
(* ===================================================================== *)

Module AdminParams.
Import Numeric.
Import PrimFloat.

#[local] Set Warnings "-inexact-float".

(** A JSON value as it arrives in a request body: [json.loads] reads a
    number written without fraction or exponent as an int and any other
    as the nearest binary64 float. *)
#[warnings="-register-all"]
Inductive value :=
| VInt (z : Z)
| VFloat (f : float)
| VBool (b : bool)
| VStr (s : string)
| VList (l : list value)
| VDict (d : gmap string value)
| VNone.

(** One category of parameters, and the whole configuration. *)
Abbreviation category_params := (gmap string value).
Abbreviation all_params := (gmap string (gmap string value)).

(** Python numbers: ints and floats, and bool, which is an int. Anything
    else makes an arithmetic operation or an ordering comparison against
    a number raise TypeError. *)
Definition num_of (v : value) : option num :=
  match v with
  | VInt z => Some (NInt z)
  | VFloat f => Some (NFloat f)
  | VBool true => Some (NInt 1)
  | VBool false => Some (NInt 0)
  | _ => None
  end.

(** The messages appended to [validation_result["errors"]]. *)
Inductive validation_error :=
| ErrSimilarityThreshold      (* "similarity_threshold 0.0-1.0 arasında olmalı" *)
| ErrSkillsWeight             (* "skills_weight 0.0-1.0 arasında olmalı" *)
| ErrWeightSum                (* "Ağırlıkların toplamı 1.0 olmalı" *)
| ErrMaxFileSize              (* "max_file_size_mb pozitif olmalı" *)
| ErrInvalidExtension (ext : value)  (* f"Geçersiz uzantı: {ext}" *)
| ErrNotificationThreshold    (* "notification_threshold 0.0-100.0 arasında olmalı" *)
| ErrDataRetention            (* "data_retention_days pozitif olmalı" *)
| ErrAnonymizeAfter           (* "anonymize_after_days pozitif olmalı" *)
| ErrValidationException.     (* f"Doğrulama hatası: {str(e)}" *)

(** The body of the [try] block threads the error list; an exception
    leaves the list as it was when it was raised. *)
Inductive outcome :=
| Continue (errors : list validation_error)
| Raised (errors : list validation_error).

Definition bind_outcome (o : outcome)
    (k : list validation_error -> outcome) : outcome :=
  match o with
  | Continue errs => k errs
  | Raised errs => Raised errs
  end.

Notation "o >>= k" := (bind_outcome o k) (at level 50, left associativity).

(** [if key in parameters: if not (lo <= parameters[key] <= hi): append]
    with float bounds [lo] and [hi]. *)
Definition check_range (parameters : category_params) (key : string)
    (lo hi : float) (e : validation_error)
    (errs : list validation_error) : outcome :=
  match parameters !! key with
  | None => Continue errs
  | Some v =>
      match num_of v with
      | None => Raised errs
      | Some x =>
          if py_le (NFloat lo) x && py_le x (NFloat hi)
          then Continue errs
          else Continue (errs ++ [e])
      end
  end.

(** [if key in parameters: if parameters[key] <= 0: append] *)
Definition check_positive (parameters : category_params) (key : string)
    (e : validation_error) (errs : list validation_error) : outcome :=
  match parameters !! key with
  | None => Continue errs
  | Some v =>
      match num_of v with
      | None => Raised errs
      | Some x =>
          if py_le x (NInt 0) then Continue (errs ++ [e]) else Continue errs
      end
  end.

(** [parameters.get(key, default)] read as a number. *)
Definition weight_of (parameters : category_params) (key : string)
    (default : float) : option num :=
  match parameters !! key with
  | None => Some (NFloat default)
  | Some v => num_of v
  end.

(** The list [weights] of the source, [None] when an entry is not a
    number (then [sum] raises). *)
Definition weights (parameters : category_params) : option (list num) :=
  match weight_of parameters "skills_weight" 0.4,
        weight_of parameters "experience_weight" 0.3,
        weight_of parameters "education_weight" 0.2,
        weight_of parameters "other_weight" 0.1 with
  | Some a, Some b, Some c, Some d => Some [a; b; c; d]
  | _, _, _, _ => None
  end.

(** The literal [0.01]. *)
Definition tolerance : float := 0.01.

(** [abs(sum(weights) - 1.0)] in binary64 arithmetic; [None] is the
    OverflowError of an int too large for a float. *)
Definition weight_sum_distance (ws : list num) : option float :=
  match py_sum ws with
  | Some total =>
      match to_float total with
      | Some t => Some (abs (t - 1))
      | None => None
      end
  | None => None
  end.

(** [abs(sum(weights) - 1.0) > 0.01] *)
Definition weight_sum_off (ws : list num) : option bool :=
  match weight_sum_distance ws with
  | Some distance => Some (ltb tolerance distance)
  | None => None
  end.

Definition check_weight_sum (parameters : category_params)
    (errs : list validation_error) : outcome :=
  match weights parameters with
  | None => Raised errs
  | Some ws =>
      match weight_sum_off ws with
      | None => Raised errs
      | Some true => Continue (errs ++ [ErrWeightSum])
      | Some false => Continue errs
      end
  end.

Definition valid_extensions : list value :=
  [VStr ".pdf"; VStr ".docx"; VStr ".doc"; VStr ".txt"; VStr ".rtf"].

Definition is_valid_extension (ext : value) : bool :=
  match ext with
  | VStr s => bool_decide (s ∈ [".pdf"; ".docx"; ".doc"; ".txt"; ".rtf"])
  | _ => false
  end.

(** The characters of a string, each as a one-character string: what
    iterating a Python [str] yields. *)
Fixpoint chars (s : string) : list value :=
  match s with
  | EmptyString => []
  | String c s' => VStr (String c EmptyString) :: chars s'
  end.

(** The keys of a dict: what iterating it yields. The map keeps no
    insertion order, so the keys come in the order of the map. *)
Definition keys (d : gmap string value) : list value :=
  map (fun kv => VStr kv.1) (map_to_list d).

Definition check_extensions (parameters : category_params)
    (errs : list validation_error) : outcome :=
  let report l :=
    Continue (errs ++ map ErrInvalidExtension
                        (filter (fun e => is_valid_extension e = false) l)) in
  match parameters !! "allowed_extensions" with
  | None => Continue errs
  | Some (VList l) => report l
  | Some (VStr s) => report (chars s)
  | Some (VDict d) => report (keys d)
  | Some _ => Raised errs
  end.

Record validation_result := {
  valid : bool;
  errors : list validation_error
}.

(** [AdminParameterService.validate_parameters] *)
Definition validate_parameters (category : string)
    (parameters : category_params) : validation_result :=
  let body :=
    if String.eqb category "matching_algorithm" then
      check_range parameters "similarity_threshold" 0 1
                  ErrSimilarityThreshold []
      >>= check_range parameters "skills_weight" 0 1 ErrSkillsWeight
      >>= check_weight_sum parameters
    else if String.eqb category "cv_parsing" then
      check_positive parameters "max_file_size_mb" ErrMaxFileSize []
      >>= check_extensions parameters
    else if String.eqb category "notification_settings" then
      check_range parameters "notification_threshold" 0 100
                  ErrNotificationThreshold []
    else if String.eqb category "gdpr_compliance" then
      check_positive parameters "data_retention_days" ErrDataRetention []
      >>= check_positive parameters "anonymize_after_days" ErrAnonymizeAfter
    else Continue []
  in
  match body with
  | Continue errs =>
      {| valid := Nat.eqb (length errs) 0; errors := errs |}
  | Raised errs =>
      {| valid := false; errors := errs ++ [ErrValidationException] |}
  end.

(** Which database call raises while the database is not fully
    reachable: [get_database] itself, so that nothing else is reached;
    the read [find_one]; the writes [update_one] and [insert_one]; or
    both the read and the writes. *)
Inductive outage :=
| NoConnection
| ReadFails
| WriteFails
| ReadWriteFail.

Inductive status :=
| Up
| Down (o : outage).

(** The service object and the [system_parameters] collection. Only the
    [admin_config] document is ever read or written; every write sets its
    [parameters] field, so the document is modelled by that field. *)
Record service := {
  default_parameters : all_params;
  db_doc : option all_params;
  db_status : status
}.

(** Every database call succeeds. *)
Definition db_up (st : service) : bool :=
  match db_status st with
  | Up => true
  | Down _ => false
  end.

(** [await get_database()] returns. *)
Definition connects (st : service) : bool :=
  match db_status st with
  | Down NoConnection => false
  | _ => true
  end.

(** [get_database] and [find_one] both return. *)
Definition reads (st : service) : bool :=
  match db_status st with
  | Up | Down WriteFails => true
  | Down _ => false
  end.

(** [update_one] and [insert_one] return. *)
Definition writes (st : service) : bool :=
  match db_status st with
  | Up | Down ReadFails => true
  | Down _ => false
  end.

(** [get_parameters()] with no category: the stored configuration, or
    [self.default_parameters] when there is no document or when reading
    raises (the [except] clause returns the defaults). *)
Definition get_parameters (st : service) : all_params :=
  if reads st then
    match db_doc st with
    | Some parameters => parameters
    | None => default_parameters st
    end
  else default_parameters st.

(** [get_parameters(category)] for a non-empty category name. When
    reading raises, the [except] clause returns the whole
    [self.default_parameters], a dict of dicts, whatever category was
    asked for. *)
Definition get_parameters_category (st : service) (category : string)
    : category_params :=
  if reads st then default (∅ : category_params) (get_parameters st !! category)
  else VDict <$> default_parameters st.

(** [{**current_params.get(category, {}), **parameters}] *)
Definition merge (current : all_params) (category : string)
    (parameters : category_params) : category_params :=
  parameters ∪ default (∅ : category_params) (current !! category).

(** [AdminParameterService.update_parameters]. [get_parameters] hands
    out [self.default_parameters] itself when no document is stored or
    when reading raises, so the assignment [current_params[category] = ...]
    then changes the defaults held by the service, and it does so before
    [update_one] is called. *)
Definition update_parameters (category : string)
    (parameters : category_params) (st : service) : bool * service :=
  if connects st then
    let current_params := get_parameters st in
    let updated := <[category := merge current_params category parameters]>
                     current_params in
    let defaults :=
      match db_doc st with
      | Some _ => if reads st then default_parameters st else updated
      | None => updated
      end in
    if writes st then
      (true, {| default_parameters := defaults; db_doc := Some updated;
                db_status := db_status st |})
    else
      (false, {| default_parameters := defaults; db_doc := db_doc st;
                 db_status := db_status st |})
  else (false, st).

(** The responses of [PUT /parameters/{category}]. *)
Inductive response :=
| Ok200
| BadRequest400 (errs : list validation_error)
| ServerError500.

(** [enhanced_admin_router.update_parameters] *)
Definition put_parameters (category : string)
    (parameters : category_params) (st : service) : response * service :=
  let validation := validate_parameters category parameters in
  if valid validation then
    match update_parameters category parameters st with
    | (true, st') => (Ok200, st')
    | (false, st') => (ServerError500, st')
    end
  else (BadRequest400 (errors validation), st).

(** [reset_parameters]. An empty category name is falsy and resets
    everything. A name that the defaults do not have raises KeyError,
    which the handler turns into [False]. The stored [parameters] field
    is replaced as a whole. *)
Definition reset_parameters (category : option string) (st : service)
    : bool * service :=
  let store reset_params :=
    if writes st then
      (true, {| default_parameters := default_parameters st;
                db_doc := Some reset_params; db_status := db_status st |})
    else (false, st) in
  if connects st then
    match category with
    | Some c =>
        if String.eqb c "" then store (default_parameters st)
        else match default_parameters st !! c with
             | Some ps => store {[ c := ps ]}
             | None => (false, st)
             end
    | None => store (default_parameters st)
    end
  else (false, st).

(** The dict built by [export_parameters] and read by
    [import_parameters]; only the [parameters] key matters to the
    latter, and it may be missing. *)
Record export_data := {
  ex_parameters : option all_params;
  ex_version : option string
}.

(** [export_parameters] *)
Definition export_parameters (st : service) : export_data :=
  {| ex_parameters := Some (get_parameters st); ex_version := Some "1.0" |}.

(** The service together with the [parameter_backups] collection. *)
Record store := {
  svc : service;
  parameter_backups : list all_params
}.

(** [import_parameters]: the current configuration is backed up, then
    the imported one is stored as it is. *)
Definition import_parameters (import_data : export_data) (s : store)
    : bool * store :=
  match ex_parameters import_data with
  | None => (false, s)
  | Some parameters =>
      if connects (svc s) && writes (svc s) then
        (true,
         {| svc := {| default_parameters := default_parameters (svc s);
                      db_doc := Some parameters;
                      db_status := db_status (svc s) |};
            parameter_backups :=
              parameter_backups s ++ [get_parameters (svc s)] |})
      else (false, s)
  end.

(** The category names that [validate_parameters] knows. *)
Definition known_categories : list string :=
  ["matching_algorithm"; "cv_parsing"; "notification_settings";
   "gdpr_compliance"].

(* --------------------------------------------------------------------- *)
(* Sample data                                                           *)
(* --------------------------------------------------------------------- *)

(** [self.default_parameters] as [__init__] builds it. *)
Definition initial_defaults : all_params :=
  <["matching_algorithm" :=
      <["similarity_threshold" := VFloat 0.7]>
      (<["skills_weight" := VFloat 0.4]>
      (<["experience_weight" := VFloat 0.3]>
      (<["education_weight" := VFloat 0.2]>
      (<["other_weight" := VFloat 0.1]>
      (<["top_k_results" := VInt 10]>
      (<["min_score_threshold" := VFloat 30]> ∅))))))]>
  (<["embedding_settings" :=
      <["model_name" := VStr "sentence-transformers/all-MiniLM-L6-v2"]>
      (<["dimension" := VInt 384]>
      (<["normalize_embeddings" := VBool true]>
      (<["use_cosine_similarity" := VBool true]> ∅)))]>
  (<["cv_parsing" :=
      <["max_file_size_mb" := VInt 10]>
      (<["allowed_extensions" := VList [VStr ".pdf"; VStr ".docx"; VStr ".doc"]]>
      (<["extract_skills_threshold" := VFloat 0.5]>
      (<["language_detection_threshold" := VFloat 0.8]> ∅)))]>
  (<["notification_settings" :=
      <["email_enabled" := VBool true]>
      (<["sms_enabled" := VBool false]>
      (<["auto_notify_matches" := VBool true]>
      (<["notification_threshold" := VFloat 70]>
      (<["batch_notification_enabled" := VBool true]> ∅))))]>
  (<["gdpr_compliance" :=
      <["data_retention_days" := VInt 30]>
      (<["anonymize_after_days" := VInt 365]>
      (<["auto_cleanup_enabled" := VBool true]>
      (<["consent_required" := VBool true]> ∅)))]> ∅)))).

(** A service holding only its defaults, database reachable. *)
Definition fresh_service (defaults : all_params) : service :=
  {| default_parameters := defaults; db_doc := None; db_status := Up |}.

(** The module-level [admin_parameter_service] before any request. *)
Definition initial_service : service := fresh_service initial_defaults.

(** The request body [{skills_weight: 0.5, experience_weight: 0.5,
    education_weight: 0.5, other_weight: 0.5}]. *)
Definition half_weights : category_params :=
  <["skills_weight" := VFloat 0.5]>
  (<["experience_weight" := VFloat 0.5]>
  (<["education_weight" := VFloat 0.5]>
  (<["other_weight" := VFloat 0.5]> ∅))).

(** The request body [{skills_weight: 0.41}]. *)
Definition boundary_request : category_params :=
  {[ "skills_weight" := VFloat 0.41 ]}.

(** Two partial requests: [{skills_weight: 0.6, experience_weight: 0.1}]
    and then [{experience_weight: 0.5, education_weight: 0.0}]. *)
Definition first_request : category_params :=
  <["skills_weight" := VFloat 0.6]> (<["experience_weight" := VFloat 0.1]> ∅).

Definition second_request : category_params :=
  <["experience_weight" := VFloat 0.5]> (<["education_weight" := VFloat 0]> ∅).

(** A stored configuration with two categories. *)
Definition sample_config : all_params :=
  <["matching_algorithm" :=
      <["skills_weight" := VFloat 0.4]>
      (<["top_k_results" := VInt 10]> ∅)]>
  (<["gdpr_compliance" := <["data_retention_days" := VInt 30]> ∅]> ∅).

Definition sample_service : service :=
  {| default_parameters := ∅; db_doc := Some sample_config; db_status := Up |}.

Definition sample_update : category_params :=
  <["top_k_results" := VInt 20]> ∅.

(** Skills 0.4, experience 1.5, education -1.0, other 0.1. *)
Definition lopsided_weights : category_params :=
  <["skills_weight" := VFloat 0.4]>
  (<["experience_weight" := VFloat 1.5]>
  (<["education_weight" := VFloat (-1)]>
  (<["other_weight" := VFloat 0.1]> ∅))).

Definition sample_defaults_service : service :=
  {| default_parameters := sample_config; db_doc := Some sample_config;
     db_status := Up |}.

(** Stored weights 0.3 / 0.5 / 0.2 / 0.1 and a request for skills 0.4. *)
Definition skewed_service : service :=
  {| default_parameters := ∅;
     db_doc := Some {[ "matching_algorithm" :=
       (<["skills_weight" := VFloat 0.3]>
       (<["experience_weight" := VFloat 0.5]>
       (<["education_weight" := VFloat 0.2]>
       (<["other_weight" := VFloat 0.1]> ∅))) : category_params) ]};
     db_status := Up |}.

(** No document is stored, the sample configuration is the defaults,
    and the writes fail. *)
Definition write_failing_service : service :=
  {| default_parameters := sample_config; db_doc := None;
     db_status := Down WriteFails |}.

(** The sample configuration is stored, the defaults are the initial
    ones, and the read fails while the writes go through. *)
Definition read_failing_service : service :=
  {| default_parameters := initial_defaults; db_doc := Some sample_config;
     db_status := Down ReadFails |}.

(* --------------------------------------------------------------------- *)
(* Properties                                                            *)
(* --------------------------------------------------------------------- *)

Lemma db_up_calls (st : service) :
  db_up st = true ->
  connects st = true /\ reads st = true /\ writes st = true.
Proof.
  unfold db_up, connects, reads, writes. by destruct (db_status st).
Qed.

Lemma check_range_keeps (parameters : category_params) key lo hi e errs errs' :
  e <> ErrWeightSum -> ErrWeightSum ∉ errs ->
  check_range parameters key lo hi e errs = Continue errs' ->
  ErrWeightSum ∉ errs'.
Proof.
  intros He Hn. unfold check_range.
  destruct (parameters !! key) as [v|]; [|congruence].
  destruct (num_of v) as [x|]; [|discriminate].
  destruct (py_le (NFloat lo) x && py_le x (NFloat hi)); intros [= <-]; [done|].
  rewrite elem_of_app, list_elem_of_singleton. intros [?|?]; [done|congruence].
Qed.

Lemma check_range_raised (parameters : category_params) key lo hi e errs errs' :
  check_range parameters key lo hi e errs = Raised errs' -> errs' = errs.
Proof.
  unfold check_range.
  destruct (parameters !! key) as [v|]; [|discriminate].
  destruct (num_of v) as [x|]; [|congruence].
  destruct (py_le (NFloat lo) x && py_le x (NFloat hi)); discriminate.
Qed.

Lemma valid_false_of_error (o : outcome) :
  (forall errs, o = Continue errs -> errs <> []) ->
  valid (match o with
         | Continue errs => {| valid := Nat.eqb (length errs) 0; errors := errs |}
         | Raised errs => {| valid := false; errors := errs ++ [ErrValidationException] |}
         end) = false.
Proof.
  destruct o as [errs|errs]; [|done]. intros H. simpl.
  destruct errs; [|done]. by destruct (H [] eq_refl).
Qed.

(** C2, as the code has it. The weight-sum check of
    [validate_parameters] works on the four weights of the request,
    absent ones read as the literals 0.4, 0.3, 0.2, 0.1, and in binary64
    arithmetic. When [abs(sum(weights) - 1.0) > 0.01] holds, validation
    reports the request invalid and the PUT route answers 400 without
    touching the service, so nothing is renormalised or saved; when it
    does not hold, the weight-sum error is not among the reported
    errors; when the sum cannot be computed the request is invalid as
    well. *)
Theorem weight_sum_validated (parameters : category_params)
    (ws : list num) (st : service) :
  weights parameters = Some ws ->
  (weight_sum_off ws = Some true ->
     valid (validate_parameters "matching_algorithm" parameters) = false /\
     put_parameters "matching_algorithm" parameters st =
       (BadRequest400
          (errors (validate_parameters "matching_algorithm" parameters)), st))
  /\
  (weight_sum_off ws = Some false ->
     ErrWeightSum ∉ errors (validate_parameters "matching_algorithm" parameters))
  /\
  (weight_sum_off ws = None ->
     valid (validate_parameters "matching_algorithm" parameters) = false).
Proof.
  intros Hw. split; [|split].
  - intros Hoff.
    assert (Hv : valid (validate_parameters "matching_algorithm" parameters) = false).
    { unfold validate_parameters. simpl String.eqb. cbv iota.
      apply valid_false_of_error. intros errs.
      destruct (check_range parameters "similarity_threshold" 0 1
                  ErrSimilarityThreshold []) as [e1|e1]; simpl; [|discriminate].
      destruct (check_range parameters "skills_weight" 0 1 ErrSkillsWeight e1)
        as [e2|e2]; simpl; [|discriminate].
      unfold check_weight_sum. rewrite Hw, Hoff. intros [= <-].
      by destruct e2. }
    split; [exact Hv|]. unfold put_parameters. by rewrite Hv.
  - intros Hin.
    unfold validate_parameters. simpl String.eqb. cbv iota.
    destruct (check_range parameters "similarity_threshold" 0 1
                ErrSimilarityThreshold []) as [e1|e1] eqn:H1; simpl.
    + apply check_range_keeps in H1; [|done|apply not_elem_of_nil].
      destruct (check_range parameters "skills_weight" 0 1 ErrSkillsWeight e1)
        as [e2|e2] eqn:H2; simpl.
      * apply check_range_keeps in H2; [|done|done].
        unfold check_weight_sum. rewrite Hw, Hin. simpl. done.
      * apply check_range_raised in H2 as ->.
        rewrite elem_of_app, list_elem_of_singleton. intros [?|?]; [done|congruence].
    + apply check_range_raised in H1 as ->.
      simpl. rewrite list_elem_of_singleton. done.
  - intros Hnone.
    unfold validate_parameters. simpl String.eqb. cbv iota.
    apply valid_false_of_error. intros errs.
    destruct (check_range parameters "similarity_threshold" 0 1
                ErrSimilarityThreshold []) as [e1|e1]; simpl; [|discriminate].
    destruct (check_range parameters "skills_weight" 0 1 ErrSkillsWeight e1)
      as [e2|e2]; simpl; [|discriminate].
    unfold check_weight_sum. rewrite Hw, Hnone. discriminate.
Qed.

Lemma weight_sum_validated_witness :
  valid (validate_parameters "matching_algorithm" half_weights) = false /\
  put_parameters "matching_algorithm" half_weights initial_service =
    (BadRequest400 [ErrWeightSum], initial_service).
Proof.
  assert (Hw : weights half_weights =
               Some [NFloat 0.5; NFloat 0.5; NFloat 0.5; NFloat 0.5])
    by (vm_compute; reflexivity).
  destruct (weight_sum_validated half_weights _ initial_service Hw)
    as [Hrej _].
  destruct Hrej as [Hv Hput].
  - vm_compute. reflexivity.
  - split; [exact Hv|]. rewrite Hput. vm_compute. reflexivity.
Defined.

(** C2 as stated fails on two counts. The request [{skills_weight: 0.41}]
    has weights 0.41, 0.3, 0.2, 0.1, whose sum differs from 1 by exactly
    0.01 and not by more, yet in float arithmetic the distance exceeds
    0.01 and the weight-sum error is reported. And the check sees one
    request at a time: two partial requests, each accepted with 200,
    leave the stored weights 0.6, 0.5, 0.0, 0.1, whose sum is off by
    more than 0.01. *)
Lemma weight_sum_not_enforced :
  (Qabs ((41 # 100) + (3 # 10) + (2 # 10) + (1 # 10) - 1) <= 1 # 100)%Q /\
  errors (validate_parameters "matching_algorithm" boundary_request) =
    [ErrWeightSum] /\
  (let r1 := put_parameters "matching_algorithm" first_request initial_service in
   let r2 := put_parameters "matching_algorithm" second_request r1.2 in
   r1.1 = Ok200 /\ r2.1 = Ok200 /\
   weights (get_parameters_category r2.2 "matching_algorithm") =
     Some [NFloat 0.6; NFloat 0.5; NFloat 0; NFloat 0.1] /\
   weight_sum_off [NFloat 0.6; NFloat 0.5; NFloat 0; NFloat 0.1] = Some true).
Proof.
  split; [vm_compute; discriminate|].
  split; [vm_compute; reflexivity|].
  repeat split; vm_compute; reflexivity.
Qed.

Lemma get_parameters_updated category (parameters : category_params) st :
  db_up st = true ->
  get_parameters (update_parameters category parameters st).2 =
    <[category := merge (get_parameters st) category parameters]>
      (get_parameters st).
Proof.
  unfold db_up, update_parameters, get_parameters, connects, reads, writes.
  destruct (db_status st); [|discriminate]. reflexivity.
Qed.

Lemma get_parameters_category_lookup st category :
  db_up st = true ->
  get_parameters_category st category =
    default (∅ : category_params) (get_parameters st !! category).
Proof.
  intros (_ & Hr & _)%db_up_calls. unfold get_parameters_category.
  by rewrite Hr.
Qed.

Lemma update_parameters_up category (parameters : category_params) st :
  db_up st = true ->
  (update_parameters category parameters st).1 = true /\
  db_up (update_parameters category parameters st).2 = true.
Proof.
  unfold db_up, update_parameters, connects, writes.
  by destruct (db_status st).
Qed.

(** C10. With the database reachable, [update_parameters] succeeds and
    merges only the supplied keys into the one category it is given:
    every other category reads as before, every key of the category that
    the update does not name reads as before, and every named key reads
    as supplied. *)
Theorem update_parameters_frame (category : string)
    (parameters : category_params) (st : service) :
  db_up st = true ->
  let st' := (update_parameters category parameters st).2 in
  (update_parameters category parameters st).1 = true /\
  (forall other, other <> category ->
     get_parameters st' !! other = get_parameters st !! other) /\
  (forall key, parameters !! key = None ->
     get_parameters_category st' category !! key =
     get_parameters_category st category !! key) /\
  (forall key v, parameters !! key = Some v ->
     get_parameters_category st' category !! key = Some v).
Proof.
  intros Hup st'. subst st'.
  destruct (update_parameters_up category parameters st Hup) as [Hok Hup'].
  split; [exact Hok|].
  rewrite !get_parameters_category_lookup, get_parameters_updated by done.
  split; [|split].
  - intros other Hne. by rewrite lookup_insert_ne.
  - intros key Hkey. rewrite lookup_insert_eq. simpl. unfold merge.
    rewrite lookup_union_r; done.
  - intros key v Hkey. rewrite lookup_insert_eq. simpl. unfold merge.
    by erewrite lookup_union_Some_l.
Qed.

Lemma update_parameters_frame_witness :
  let st' := (update_parameters "matching_algorithm" sample_update
                sample_service).2 in
  get_parameters st' !! "gdpr_compliance" =
    get_parameters sample_service !! "gdpr_compliance" /\
  get_parameters_category st' "matching_algorithm" !! "skills_weight" =
    Some (VFloat 0.4) /\
  get_parameters_category st' "matching_algorithm" !! "top_k_results" =
    Some (VInt 20).
Proof.
  destruct (update_parameters_frame "matching_algorithm" sample_update
              sample_service eq_refl) as (_ & Hother & Hkeep & Hnew).
  split; [|split].
  - apply Hother. discriminate.
  - rewrite (Hkeep "skills_weight"); vm_compute; reflexivity.
  - apply Hnew; vm_compute; reflexivity.
Defined.

(** When the read fails and the write goes through, the update is
    merged into the defaults and that is what gets stored: the category
    [gdpr_compliance] of the stored configuration, which held only
    [data_retention_days], is replaced by the default one. When reading
    fails, asking for one category returns all the defaults. *)
Example update_after_failed_read :
  let r := update_parameters "matching_algorithm" sample_update
             read_failing_service in
  r.1 = true /\
  db_doc r.2 =
    Some (<["matching_algorithm" :=
              sample_update ∪ default ∅ (initial_defaults !! "matching_algorithm")]>
            initial_defaults) /\
  db_doc read_failing_service = Some sample_config /\
  get_parameters_category read_failing_service "gdpr_compliance" =
    VDict <$> initial_defaults.
Proof. repeat split. Qed.

(* --------------------------------------------------------------------- *)
(* Further properties of the parameter service                           *)
(* --------------------------------------------------------------------- *)

Lemma valid_iff_no_errors category (parameters : category_params) :
  valid (validate_parameters category parameters) = true <->
  errors (validate_parameters category parameters) = [].
Proof.
  unfold validate_parameters.
  match goal with |- context [match ?b with Continue _ => _ | Raised _ => _ end] =>
    destruct b as [errs|errs] end; simpl.
  - destruct errs; simpl; split; congruence.
  - split; [discriminate|]. by destruct errs.
Qed.

(** The PUT route answers 200 exactly when validation reports no error
    and both [get_database] and the write succeed. A 400 leaves the
    service as it was. A 500 leaves the stored document as it was, and
    the whole service when [get_database] itself failed; but when the
    write fails after [current_params] was taken from the defaults (no
    document stored, or the read failed), the merge has already been
    written into the service's own defaults. *)
Theorem put_parameters_outcome (category : string)
    (parameters : category_params) (st : service) :
  let r := put_parameters category parameters st in
  (r.1 = Ok200 <->
     errors (validate_parameters category parameters) = [] /\
     connects st = true /\ writes st = true) /\
  (forall errs, r.1 = BadRequest400 errs -> r.2 = st) /\
  (r.1 = ServerError500 ->
     db_doc r.2 = db_doc st /\ (connects st = false -> r.2 = st)) /\
  (r.1 = ServerError500 -> connects st = true ->
   reads st = false \/ db_doc st = None ->
     default_parameters r.2 !! category =
       Some (parameters ∪ default (∅ : category_params)
                            (default_parameters st !! category))).
Proof.
  intros r. subst r. unfold put_parameters.
  pose proof (valid_iff_no_errors category parameters) as Hv.
  destruct (valid (validate_parameters category parameters)).
  - unfold update_parameters.
    destruct (connects st) eqn:Hc; simpl.
    + destruct (writes st) eqn:Hw; simpl.
      * split; [|split; [done|split; done]].
        split; [|done]. intros _. split; [by apply Hv|done].
      * split; [|split; [done|split]].
        -- split; [done|]. by intros (_ & _ & ?).
        -- intros _. split; [done|discriminate].
        -- intros _ _ Hsrc. unfold get_parameters, merge.
           destruct Hsrc as [Hr|Hdoc].
           ++ rewrite Hr. destruct (db_doc st); by rewrite lookup_insert_eq.
           ++ rewrite Hdoc. destruct (reads st); by rewrite lookup_insert_eq.
    + split; [|split; [done|split; [done|discriminate]]].
      split; [done|]. by intros (_ & ? & _).
  - simpl. split; [|split; [done|split; discriminate]].
    split; [done|]. intros [He _]. apply Hv in He. discriminate.
Qed.

Lemma put_parameters_outcome_witness :
  let r := put_parameters "matching_algorithm" sample_update
             write_failing_service in
  r.1 = ServerError500 /\
  default_parameters r.2 !! "matching_algorithm" =
    Some (sample_update ∪ default (∅ : category_params)
                            (sample_config !! "matching_algorithm")).
Proof.
  split; [reflexivity|].
  apply (put_parameters_outcome "matching_algorithm" sample_update
           write_failing_service).
  - reflexivity.
  - reflexivity.
  - right. reflexivity.
Defined.

(** A category name outside the four known ones is not validated at
    all: with the database reachable the PUT route stores whatever it is
    given under that name. *)
Theorem unknown_category_stored (category : string)
    (parameters : category_params) (st : service) :
  category ∉ known_categories -> db_up st = true ->
  (put_parameters category parameters st).1 = Ok200 /\
  get_parameters_category (put_parameters category parameters st).2 category =
    parameters ∪ get_parameters_category st category.
Proof.
  intros Hnot Hup.
  assert (Hv : validate_parameters category parameters =
               {| valid := true; errors := [] |}).
  { unfold validate_parameters.
    destruct (String.eqb_spec category "matching_algorithm") as [->|_].
    { exfalso. apply Hnot. set_solver. }
    destruct (String.eqb_spec category "cv_parsing") as [->|_].
    { exfalso. apply Hnot. set_solver. }
    destruct (String.eqb_spec category "notification_settings") as [->|_].
    { exfalso. apply Hnot. set_solver. }
    destruct (String.eqb_spec category "gdpr_compliance") as [->|_].
    { exfalso. apply Hnot. set_solver. }
    reflexivity. }
  unfold put_parameters. rewrite Hv. simpl.
  pose proof (get_parameters_updated category parameters st Hup) as Hg.
  destruct (update_parameters_up category parameters st Hup) as [Hok Hup'].
  destruct (update_parameters category parameters st) as [[|] st']; [|done].
  simpl in *. split; [done|].
  rewrite !get_parameters_category_lookup, Hg, lookup_insert_eq by done.
  reflexivity.
Qed.

Lemma unknown_category_stored_witness :
  get_parameters_category
    (put_parameters "experimental" sample_update sample_service).2
    "experimental" = sample_update ∪ ∅.
Proof.
  destruct (unknown_category_stored "experimental" sample_update sample_service)
    as [_ H].
  - apply (bool_decide_unpack ("experimental" ∉ known_categories)).
    vm_compute. reflexivity.
  - reflexivity.
  - rewrite H. f_equal.
Defined.

Lemma check_range_in (parameters : category_params) key lo hi e errs a :
  parameters !! key = Some (VFloat a) ->
  leb lo a = true -> leb a hi = true ->
  check_range parameters key lo hi e errs = Continue errs.
Proof.
  intros Hk Hlo Hhi. unfold check_range. rewrite Hk. simpl.
  by rewrite Hlo, Hhi.
Qed.

Lemma check_range_absent (parameters : category_params) key lo hi e errs :
  parameters !! key = None ->
  check_range parameters key lo hi e errs = Continue errs.
Proof. intros Hk. unfold check_range. by rewrite Hk. Qed.

Lemma weights_request_valid (parameters : category_params) (a : float)
    (ws : list num) :
  parameters !! "similarity_threshold" = None ->
  parameters !! "skills_weight" = Some (VFloat a) ->
  leb 0 a = true -> leb a 1 = true ->
  weights parameters = Some ws ->
  weight_sum_off ws = Some false ->
  validate_parameters "matching_algorithm" parameters =
    {| valid := true; errors := [] |}.
Proof.
  intros Hth Hsk Ha0 Ha1 Hw Hsum.
  unfold validate_parameters. simpl String.eqb. cbv iota.
  rewrite (check_range_absent _ _ _ _ _ _ Hth). simpl.
  rewrite (check_range_in _ _ _ _ _ _ a) by done. simpl.
  unfold check_weight_sum. by rewrite Hw, Hsum.
Qed.

(** Only [skills_weight] is range-checked. A request whose skills weight
    is a float in [0, 1], and for which [abs(sum(weights) - 1.0) > 0.01]
    is false in binary64 arithmetic, is valid whatever the signs and
    sizes of the other three weights. *)
Theorem other_weights_unchecked (parameters : category_params)
    (a : float) (ws : list num) :
  parameters !! "similarity_threshold" = None ->
  parameters !! "skills_weight" = Some (VFloat a) ->
  leb 0 a = true -> leb a 1 = true ->
  weights parameters = Some ws ->
  weight_sum_off ws = Some false ->
  valid (validate_parameters "matching_algorithm" parameters) = true /\
  errors (validate_parameters "matching_algorithm" parameters) = [].
Proof.
  intros Hth Hsk Ha0 Ha1 Hw Hsum.
  by rewrite (weights_request_valid parameters a ws).
Qed.

Lemma other_weights_unchecked_witness :
  valid (validate_parameters "matching_algorithm" lopsided_weights) = true.
Proof.
  apply (other_weights_unchecked lopsided_weights 0.4
           [NFloat 0.4; NFloat 1.5; NFloat (-1); NFloat 0.1]);
    vm_compute; reflexivity.
Defined.

(** A weight that is not a number (a string, a list, null) makes the
    request invalid through the exception path: the validation-exception
    message is reported. *)
Theorem non_numeric_weight_rejected (parameters : category_params) :
  weights parameters = None ->
  valid (validate_parameters "matching_algorithm" parameters) = false /\
  ErrValidationException ∈
    errors (validate_parameters "matching_algorithm" parameters).
Proof.
  intros Hw. unfold validate_parameters. simpl String.eqb. cbv iota.
  destruct (check_range parameters "similarity_threshold" 0 1
              ErrSimilarityThreshold []) as [e1|e1]; simpl.
  - destruct (check_range parameters "skills_weight" 0 1 ErrSkillsWeight e1)
      as [e2|e2]; simpl.
    + unfold check_weight_sum. rewrite Hw. simpl.
      split; [done|]. apply elem_of_app. right. by apply list_elem_of_singleton.
    + split; [done|]. apply elem_of_app. right. by apply list_elem_of_singleton.
  - split; [done|]. apply elem_of_app. right. by apply list_elem_of_singleton.
Qed.

Lemma non_numeric_weight_rejected_witness :
  valid (validate_parameters "matching_algorithm"
           (<["other_weight" := VStr "0.1"]> ∅)) = false.
Proof.
  apply (non_numeric_weight_rejected (<["other_weight" := VStr "0.1"]> ∅)).
  vm_compute. reflexivity.
Defined.

Lemma chars_all_invalid (s : string) :
  filter (fun e => is_valid_extension e = false) (chars s) = chars s.
Proof.
  induction s as [|c s IH]; [done|]. simpl.
  rewrite filter_cons_True; [by rewrite IH|].
  simpl. apply bool_decide_eq_false. intros Hin.
  repeat (apply elem_of_cons in Hin as [Hin|Hin]; [discriminate Hin|]).
  by apply elem_of_nil in Hin.
Qed.

Lemma chars_length (s : string) : length (chars s) = String.length s.
Proof. induction s as [|c s IH]; simpl; [done|by rewrite IH]. Qed.

(** [allowed_extensions] given as one string instead of a list is read
    character by character: every character is reported as an invalid
    extension, so any non-empty string is rejected, ".pdf" included. *)
Theorem extension_string_rejected (parameters : category_params) (s : string) :
  parameters !! "max_file_size_mb" = None ->
  parameters !! "allowed_extensions" = Some (VStr s) ->
  s <> "" ->
  valid (validate_parameters "cv_parsing" parameters) = false /\
  errors (validate_parameters "cv_parsing" parameters) =
    map ErrInvalidExtension (chars s).
Proof.
  intros Hsize Hext Hs. unfold validate_parameters. simpl String.eqb. cbv iota.
  unfold check_positive. rewrite Hsize. simpl.
  unfold check_extensions. rewrite Hext. simpl.
  rewrite chars_all_invalid. split; [|done].
  destruct s; [done|reflexivity].
Qed.

Lemma extension_string_rejected_witness :
  valid (validate_parameters "cv_parsing"
           (<["allowed_extensions" := VStr ".pdf"]> ∅)) = false.
Proof.
  apply (extension_string_rejected
           (<["allowed_extensions" := VStr ".pdf"]> ∅) ".pdf");
    [reflexivity|reflexivity|discriminate].
Defined.

(** Resetting one category replaces the whole stored configuration by
    that category's defaults: every other category then reads as empty. *)
Theorem reset_category_drops_others (category : string)
    (ps : category_params) (st : service) :
  db_up st = true -> category <> "" ->
  default_parameters st !! category = Some ps ->
  (reset_parameters (Some category) st).1 = true /\
  get_parameters (reset_parameters (Some category) st).2 = {[ category := ps ]} /\
  (forall other, other <> category ->
     get_parameters_category (reset_parameters (Some category) st).2 other = ∅).
Proof.
  intros Hup Hne Hdef. unfold reset_parameters.
  destruct (db_up_calls st Hup) as (Hc & Hr & Hw).
  rewrite Hc, Hw, Hdef.
  apply String.eqb_neq in Hne. rewrite Hne. simpl.
  unfold get_parameters_category, get_parameters, reads in *. simpl.
  rewrite Hr. simpl.
  split; [done|]. split; [done|].
  intros other Hother. by rewrite lookup_singleton_ne.
Qed.

Lemma reset_category_drops_others_witness :
  get_parameters_category
    (reset_parameters (Some "gdpr_compliance") sample_defaults_service).2
    "matching_algorithm" = ∅.
Proof.
  destruct (reset_category_drops_others "gdpr_compliance"
              (<["data_retention_days" := VInt 30]> ∅) sample_defaults_service)
    as (_ & _ & H); [reflexivity|discriminate|reflexivity|].
  apply H. discriminate.
Defined.

(** Resetting a category that the defaults do not have fails and leaves
    the service as it was; so does any reset while [get_database] or the
    write fails. *)
Theorem reset_unknown_category_fails (category : string) (st : service) :
  category <> "" ->
  default_parameters st !! category = None \/
  connects st = false \/ writes st = false ->
  reset_parameters (Some category) st = (false, st).
Proof.
  intros Hne H. unfold reset_parameters.
  apply String.eqb_neq in Hne. rewrite Hne.
  destruct (connects st); [|done].
  destruct (default_parameters st !! category); [|done].
  destruct (writes st); [|done].
  destruct H as [H|[H|H]]; discriminate.
Qed.

Lemma reset_unknown_category_fails_witness :
  reset_parameters (Some "experimental") sample_defaults_service =
    (false, sample_defaults_service).
Proof.
  apply reset_unknown_category_fails; [discriminate|left; reflexivity].
Defined.

(** While no configuration document is stored, [update_parameters]
    writes into the service's own defaults: a full reset afterwards does
    not bring the original values back. *)
Theorem update_survives_reset (category : string)
    (parameters : category_params) (st : service) :
  db_up st = true -> db_doc st = None ->
  let st1 := (update_parameters category parameters st).2 in
  default_parameters st1 !! category =
    Some (parameters ∪ default (∅ : category_params)
                         (default_parameters st !! category)) /\
  get_parameters (reset_parameters None st1).2 = get_parameters st1.
Proof.
  intros Hup Hdoc st1. subst st1.
  unfold db_up in Hup.
  unfold update_parameters, reset_parameters, get_parameters, connects,
    reads, writes.
  destruct (db_status st) eqn:Hst; [|discriminate].
  rewrite Hdoc. simpl. split; [|by rewrite ?Hst].
  by rewrite lookup_insert_eq.
Qed.

Lemma update_survives_reset_witness :
  get_parameters_category
    (reset_parameters None
       (update_parameters "matching_algorithm" sample_update
          (fresh_service sample_config)).2).2
    "matching_algorithm" !! "top_k_results" = Some (VInt 20).
Proof.
  destruct (update_survives_reset "matching_algorithm" sample_update
              (fresh_service sample_config)) as [_ H]; [reflexivity..|].
  rewrite get_parameters_category_lookup, H by reflexivity.
  vm_compute. reflexivity.
Defined.

(** [import_parameters] stores the imported configuration without
    validating it and appends the configuration it replaces to the
    backups; importing what [export_parameters] returned leaves the
    configuration as it reads. *)
Theorem import_stores_unvalidated (parameters : all_params) (s : store) :
  db_up (svc s) = true ->
  let r := import_parameters
             {| ex_parameters := Some parameters; ex_version := None |} s in
  r.1 = true /\
  get_parameters (svc r.2) = parameters /\
  parameter_backups r.2 = parameter_backups s ++ [get_parameters (svc s)] /\
  get_parameters (svc (import_parameters (export_parameters (svc s)) s).2) =
    get_parameters (svc s).
Proof.
  intros Hup r. subst r. unfold import_parameters, export_parameters.
  destruct (db_up_calls _ Hup) as (Hc & Hr & Hw).
  simpl. rewrite Hc, Hw. simpl.
  unfold get_parameters, reads in *. simpl. rewrite Hr.
  repeat split; reflexivity.
Qed.

Lemma import_stores_unvalidated_witness :
  valid (validate_parameters "matching_algorithm" half_weights) = false /\
  get_parameters_category
    (svc (import_parameters
            {| ex_parameters := Some {[ "matching_algorithm" := half_weights ]};
               ex_version := None |}
            {| svc := sample_service; parameter_backups := [] |}).2)
    "matching_algorithm" = half_weights.
Proof.
  split; [vm_compute; reflexivity|].
  destruct (import_stores_unvalidated {[ "matching_algorithm" := half_weights ]}
              {| svc := sample_service; parameter_backups := [] |})
    as (_ & H & _); [reflexivity|].
  rewrite get_parameters_category_lookup, H by reflexivity. reflexivity.
Defined.

(** Two updates of one category in a row read as the single update that
    carries both sets of keys, the later one winning. *)
Theorem update_parameters_compose (category : string)
    (p1 p2 : category_params) (st : service) :
  db_up st = true ->
  get_parameters
    (update_parameters category p2 (update_parameters category p1 st).2).2 =
  get_parameters (update_parameters category (p2 ∪ p1) st).2.
Proof.
  intros Hup.
  destruct (update_parameters_up category p1 st Hup) as [_ Hup1].
  rewrite (get_parameters_updated _ _ _ Hup1).
  rewrite !(get_parameters_updated _ _ _ Hup).
  unfold merge. rewrite lookup_insert_eq, insert_insert_eq. simpl.
  by rewrite (assoc_L (∪)).
Qed.

Lemma update_parameters_compose_witness :
  get_parameters
    (update_parameters "matching_algorithm" sample_update
       (update_parameters "matching_algorithm" half_weights sample_service).2).2 =
  get_parameters
    (update_parameters "matching_algorithm" (sample_update ∪ half_weights)
       sample_service).2.
Proof.
  apply (update_parameters_compose "matching_algorithm" half_weights
           sample_update sample_service).
  reflexivity.
Defined.

(** The weight sum is checked on the request with the built-in defaults
    filling the gaps, not on the stored weights: a request that names
    only a [skills_weight] in [0, 1], for which
    [abs(sum([w, 0.3, 0.2, 0.1]) - 1.0) > 0.01] is false in binary64
    arithmetic, is accepted and merged whatever the other stored weights
    are. *)
Theorem partial_update_ignores_stored (w : float) (st : service) :
  db_up st = true ->
  leb 0 w = true -> leb w 1 = true ->
  weight_sum_off [NFloat w; NFloat 0.3; NFloat 0.2; NFloat 0.1] = Some false ->
  let request : category_params := {[ "skills_weight" := VFloat w ]} in
  (put_parameters "matching_algorithm" request st).1 = Ok200 /\
  get_parameters_category
    (put_parameters "matching_algorithm" request st).2 "matching_algorithm" =
    <["skills_weight" := VFloat w]>
      (get_parameters_category st "matching_algorithm").
Proof.
  intros Hup Hw0 Hw1 Hsum request.
  assert (Hv : validate_parameters "matching_algorithm" request =
               {| valid := true; errors := [] |}).
  { apply (weights_request_valid request w
             [NFloat w; NFloat 0.3; NFloat 0.2; NFloat 0.1]); done. }
  unfold put_parameters. rewrite Hv. simpl.
  pose proof (get_parameters_updated "matching_algorithm" request st Hup) as Hg.
  destruct (update_parameters_up "matching_algorithm" request st Hup)
    as [Hok Hup'].
  destruct (update_parameters "matching_algorithm" request st) as [[|] st'];
    [|done].
  simpl in *. split; [done|].
  rewrite !get_parameters_category_lookup, Hg, lookup_insert_eq by done.
  simpl. unfold merge, request. by rewrite insert_union_singleton_l.
Qed.

Lemma partial_update_ignores_stored_witness :
  weights (get_parameters_category
             (put_parameters "matching_algorithm"
                {[ "skills_weight" := VFloat 0.4 ]} skewed_service).2
             "matching_algorithm") =
    Some [NFloat 0.4; NFloat 0.5; NFloat 0.2; NFloat 0.1].
Proof.
  destruct (partial_update_ignores_stored 0.4 skewed_service)
    as [_ H]; [vm_compute; reflexivity..|].
  rewrite H. vm_compute. reflexivity.
Defined.

End AdminParams.

(* ===================================================================== *)
(* Candidate and posting records                                         *)
(* ===================================================================== *)

Module Records.

(** The records are Python dicts read with [.get]. Where the modelled
    code treats an absent key and an empty value ([''], [[]], [{}])
    alike, a field holds the empty value when its key is absent; the
    name and e-mail are optional because the routers substitute a
    default only when the key is absent. *)
Record personal_info := {
  name : option string;
  email : option string
}.

Record education := {
  degree : string;
  field : string;
  institution : string
}.

Record experience := {
  position : string;
  company : string;
  description : string
}.

(** [cv['parsed_data']] *)
Record cv_data := {
  cv_personal_info : personal_info;
  cv_education : list education;
  cv_experience : list experience;
  cv_skills : list string;
  cv_raw_text : string
}.

(** A document of the [jobs] collection. *)
Record job_data := {
  job_id : string;
  title : string;
  job_company : string;
  job_description : string;
  required_skills : list string
}.

End Records.

(* ===================================================================== *)
(* Embedding service                                                     *)
(* ===================================================================== *)

Module Embedding.
Import Text Records.

(** The exceptions that leave the service. *)
Inductive error :=
| ValueError (msg : string)
| KeyError (key : Z)
| AssertionError
| RuntimeError (msg : string)
| FileNotFoundError (path : string)
| UnpicklingError.

Inductive result (A : Type) :=
| Ok (a : A)
| Err (e : error).
Arguments Ok {A} a.
Arguments Err {A} e.

Definition bind {A B : Type} (r : result A) (k : A -> result B) : result B :=
  match r with
  | Ok a => k a
  | Err e => Err e
  end.

Notation "'let*' x := r 'in' k" := (bind r (fun x => k))
  (at level 10, x name, r at level 100, k at level 200).

Fixpoint mapM {A B : Type} (f : A -> result B) (l : list A) : result (list B) :=
  match l with
  | [] => Ok []
  | a :: l' => let* b := f a in let* bs := mapM f l' in Ok (b :: bs)
  end.

(** An embedding: a float array, idealised to rationals. *)
Abbreviation vector := (list Q).

(* --------------------------------------------------------------------- *)
(* Canonical text                                                        *)
(* --------------------------------------------------------------------- *)

Definition edu_text (edu : education) : string :=
  strip (degree edu +:+ " " +:+ field edu +:+ " " +:+ institution edu).

Definition exp_text (exp : experience) : string :=
  strip (position exp +:+ " " +:+ company exp +:+ " " +:+ description exp).

Definition nonempty (s : string) : bool := negb (String.eqb s "").

(** The [text_parts] list built by [create_cv_embedding]. *)
Definition cv_text_parts (cv : cv_data) : list string :=
  match name (cv_personal_info cv) with
  | Some n => if nonempty n then ["İsim: " +:+ n] else []
  | None => []
  end
  ++ match cv_education cv with
     | [] => []
     | edus => ["Eğitim: " +:+ join " " (map edu_text edus)]
     end
  ++ match cv_experience cv with
     | [] => []
     | exps => ["Tecrübe: " +:+ join " " (map exp_text exps)]
     end
  ++ match cv_skills cv with
     | [] => []
     | skills => ["Beceriler: " +:+ join " " skills]
     end
  ++ (if nonempty (cv_raw_text cv)
      then [take_chars 1000 (cv_raw_text cv)] else []).

Definition cv_text (cv : cv_data) : string := join " " (cv_text_parts cv).

(** The [text_parts] list built by [create_job_embedding]. *)
Definition job_text_parts (job : job_data) : list string :=
  (if nonempty (title job) then ["Pozisyon: " +:+ title job] else [])
  ++ (if nonempty (job_company job) then ["Şirket: " +:+ job_company job] else [])
  ++ (if nonempty (job_description job)
      then ["Açıklama: " +:+ job_description job] else [])
  ++ match required_skills job with
     | [] => []
     | skills => ["Gereken Beceriler: " +:+ join " " skills]
     end.

Definition job_text (job : job_data) : string := join " " (job_text_parts job).

Definition cv_text_error : error :=
  ValueError "CV'den embedding oluşturmak için yeterli metin bulunamadı".

Definition job_text_error : error :=
  ValueError "İş ilanından embedding oluşturmak için yeterli metin bulunamadı".

Section Encoder.

(** [self.model.encode([text])[0]]: the sentence encoder. *)
Variable encode : string -> vector.

(** [create_cv_embedding]. The second component lists the texts handed
    to the encoder, in order. The [except] clause logs and re-raises. *)
Definition create_cv_embedding (cv : cv_data) : result vector * list string :=
  let combined_text := cv_text cv in
  if String.eqb (strip combined_text) ""
  then (Err cv_text_error, [])
  else (Ok (encode combined_text), [combined_text]).

(** [create_job_embedding] *)
Definition create_job_embedding (job : job_data) : result vector * list string :=
  let combined_text := job_text job in
  if String.eqb (strip combined_text) ""
  then (Err job_text_error, [])
  else (Ok (encode combined_text), [combined_text]).

End Encoder.

(* --------------------------------------------------------------------- *)
(* faiss.IndexFlatL2, by its documented behaviour                        *)
(* --------------------------------------------------------------------- *)

(** A flat index: the dimension and the stored rows, position = rank of
    insertion. *)
Record flat_index := {
  d : nat;
  xb : list vector
}.

Definition ntotal (idx : flat_index) : nat := length (xb idx).

(** Squared Euclidean distance. *)
Definition l2_sqr (x y : vector) : Q :=
  fold_left Qplus (zip_with (fun a b => (a - b) * (a - b))%Q x y) 0%Q.

(** [np.array(rows, dtype=np.float32)] followed by the unpacking
    [n, d = x.shape] of [index.add]: an empty list gives a 1-D array and
    ragged rows give no array at all; both end in ValueError. *)
Definition np_array_2d (rows : list vector) : result (list vector) :=
  match rows with
  | [] => Err (ValueError "not enough values to unpack (expected 2, got 1)")
  | r :: rest =>
      if forallb (fun r' => (length r' =? length r)%nat) rest
      then Ok rows
      else Err (ValueError "inhomogeneous shape")
  end.

(** [index.add(x)]: [assert d == self.d], then the rows are appended. *)
Definition index_add (rows : list vector) (idx : flat_index) : result flat_index :=
  if forallb (fun r => (length r =? d idx)%nat) rows
  then Ok {| d := d idx; xb := xb idx ++ rows |}
  else Err AssertionError.

(** Insertion into a list ordered by distance; an entry goes before the
    first one that is not closer. The library promises no order among
    equal distances; the model keeps the earlier position first. *)
Fixpoint insert_by_distance (e : Q * Z) (l : list (Q * Z)) : list (Q * Z) :=
  match l with
  | [] => [e]
  | e' :: l' =>
      if Qle_bool e.1 e'.1 then e :: l
      else e' :: insert_by_distance e l'
  end.

Definition sort_by_distance (l : list (Q * Z)) : list (Q * Z) :=
  foldr insert_by_distance [] l.

(** The largest float32, the distance reported for a missing result. *)
Definition FLT_MAX : Q := 340282346638528859811704183484516925440 # 1.

(** [D, I = index.search(x, k)] for a single query row: the [k] nearest
    stored rows, nearest first; when fewer than [k] rows are stored the
    remaining labels are -1. The Python wrapper asserts the query
    dimension and [k > 0]. The distances are taken here on the exact
    values of the rows. The library stores and compares float32 values:
    there, rounding can change the order of rows at nearly equal
    distances, and a distance that overflows is reported as a missing
    result. No statement below is about the order of the results. *)
Definition index_search (idx : flat_index) (query : vector) (k : Z)
    : result (list Q * list Z) :=
  if negb (length query =? d idx)%nat then Err AssertionError
  else if negb (0 <? k)%Z then Err AssertionError
  else
    let scored := imap (fun i x => (l2_sqr query x, Z.of_nat i)) (xb idx) in
    let top := take (Z.to_nat k) (sort_by_distance scored) in
    let missing := (Z.to_nat k - length top)%nat in
    Ok (map fst top ++ replicate missing FLT_MAX,
        map snd top ++ replicate missing (-1)%Z).

(* --------------------------------------------------------------------- *)
(* EmbeddingService                                                      *)
(* --------------------------------------------------------------------- *)

(** One metadata dict, as handed to [build_faiss_index]. *)
Abbreviation meta := (gmap string string).

Record service := {
  dimension : nat;
  cv_index : option flat_index;
  job_index : option flat_index;
  cv_metadata : gmap Z meta;
  job_metadata : gmap Z meta
}.

(** The state after [__init__]. *)
Definition init_service : service :=
  {| dimension := 384; cv_index := None; job_index := None;
     cv_metadata := ∅; job_metadata := ∅ |}.

(** [{i: m for i, m in enumerate(metadata)}] *)
Definition enumerate_metadata (metadata : list meta) : gmap Z meta :=
  list_to_map (imap (fun i m => (Z.of_nat i, m)) metadata).

(** [build_faiss_index]: any [index_type] other than "cv" builds the job
    index. An exception leaves the service as it was. *)
Definition build_faiss_index (embeddings : list vector) (metadata : list meta)
    (index_type : string) (st : service) : result service :=
  let* rows := np_array_2d embeddings in
  let* index := index_add rows {| d := dimension st; xb := [] |} in
  if String.eqb index_type "cv" then
    Ok {| dimension := dimension st;
          cv_index := Some index; job_index := job_index st;
          cv_metadata := enumerate_metadata metadata;
          job_metadata := job_metadata st |}
  else
    Ok {| dimension := dimension st;
          cv_index := cv_index st; job_index := Some index;
          cv_metadata := cv_metadata st;
          job_metadata := enumerate_metadata metadata |}.

(** [[metadata[i] for i in I[0]]]: the first label without an entry
    raises KeyError. *)
Definition lookup_labels (metadata : gmap Z meta) (labels : list Z)
    : result (list meta) :=
  mapM (fun i => match metadata !! i with
                 | Some m => Ok m
                 | None => Err (KeyError i)
                 end) labels.

Definition index_missing : error := ValueError "FAISS index bulunamadı".

(** [search_similar]. An index object is truthy whenever it is not
    [None]. *)
Definition search_similar (query_embedding : vector) (top_k : Z)
    (index_type : string) (st : service) : result (list meta) :=
  match String.eqb index_type "cv", cv_index st,
        String.eqb index_type "job", job_index st with
  | true, Some index, _, _ =>
      let* DI := index_search index query_embedding top_k in
      lookup_labels (cv_metadata st) DI.2
  | _, _, true, Some index =>
      let* DI := index_search index query_embedding top_k in
      lookup_labels (job_metadata st) DI.2
  | _, _, _, _ => Err index_missing
  end.

(** The files written by [save_index]. *)
Inductive file :=
| IndexFile (index : flat_index)
| PickleFile (metadata : gmap Z meta).

Abbreviation filesystem := (gmap string file).

(** [save_index]: with no index of the requested type nothing is
    written. Writes themselves do not fail in this model. *)
Definition save_index (path : string) (index_type : string) (st : service)
    (fs : filesystem) : filesystem :=
  match String.eqb index_type "cv", cv_index st,
        String.eqb index_type "job", job_index st with
  | true, Some index, _, _ =>
      <[path +:+ ".meta" := PickleFile (cv_metadata st)]>
        (<[path := IndexFile index]> fs)
  | _, _, true, Some index =>
      <[path +:+ ".meta" := PickleFile (job_metadata st)]>
        (<[path := IndexFile index]> fs)
  | _, _, _, _ => fs
  end.

(** [faiss.read_index(path)] *)
Definition read_index (path : string) (fs : filesystem) : result flat_index :=
  match fs !! path with
  | Some (IndexFile index) => Ok index
  | Some (PickleFile _) => Err (RuntimeError "read_index")
  | None => Err (RuntimeError "could not open file")
  end.

(** [pickle.load(open(path, "rb"))] *)
Definition read_pickle (path : string) (fs : filesystem) : result (gmap Z meta) :=
  match fs !! path with
  | Some (PickleFile metadata) => Ok metadata
  | Some (IndexFile _) => Err UnpicklingError
  | None => Err (FileNotFoundError path)
  end.

(** [load_index]. The index attribute is assigned before the metadata
    file is opened, so a failure on the metadata leaves the new index
    with the old metadata. The result is the exception raised, if any. *)
Definition load_index (path : string) (index_type : string) (st : service)
    (fs : filesystem) : option error * service :=
  if String.eqb index_type "cv" then
    match read_index path fs with
    | Err e => (Some e, st)
    | Ok index =>
        let st1 := {| dimension := dimension st;
                      cv_index := Some index; job_index := job_index st;
                      cv_metadata := cv_metadata st;
                      job_metadata := job_metadata st |} in
        match read_pickle (path +:+ ".meta") fs with
        | Err e => (Some e, st1)
        | Ok metadata =>
            (None, {| dimension := dimension st;
                      cv_index := Some index; job_index := job_index st;
                      cv_metadata := metadata;
                      job_metadata := job_metadata st |})
        end
    end
  else if String.eqb index_type "job" then
    match read_index path fs with
    | Err e => (Some e, st)
    | Ok index =>
        let st1 := {| dimension := dimension st;
                      cv_index := cv_index st; job_index := Some index;
                      cv_metadata := cv_metadata st;
                      job_metadata := job_metadata st |} in
        match read_pickle (path +:+ ".meta") fs with
        | Err e => (Some e, st1)
        | Ok metadata =>
            (None, {| dimension := dimension st;
                      cv_index := cv_index st; job_index := Some index;
                      cv_metadata := cv_metadata st;
                      job_metadata := metadata |})
        end
    end
  else (None, st).

(** Sample data: two candidates in a two-dimensional index. *)
Definition meta_a : meta := {[ "cv_id" := "cv-a" ]}.
Definition meta_b : meta := {[ "cv_id" := "cv-b" ]}.

Definition service_2d : service :=
  {| dimension := 2; cv_index := None; job_index := None;
     cv_metadata := ∅; job_metadata := ∅ |}.

Definition two_cvs : service :=
  match build_faiss_index [[1; 0]; [0; 1]]%Q [meta_a; meta_b] "cv" service_2d with
  | Ok st => st
  | Err _ => service_2d
  end.

(** The same two candidates in the service as [__init__] leaves it,
    with rows of 384 components: the first two unit vectors. *)
Definition axis (i : nat) : vector :=
  replicate i 0%Q ++ [1%Q] ++ replicate (383 - i) 0%Q.

Definition two_cvs_384 : service :=
  match build_faiss_index [axis 0; axis 1] [meta_a; meta_b] "cv" init_service with
  | Ok st => st
  | Err _ => init_service
  end.

(** Neither the requested index nor a usable substitute: the index is
    absent, or present without rows and with no metadata under -1. *)
Definition unready (index : option flat_index) (metadata : gmap Z meta) : Prop :=
  match index with
  | None => True
  | Some idx => xb idx = [] /\ metadata !! (-1)%Z = None
  end.

(* --------------------------------------------------------------------- *)
(* Properties                                                            *)
(* --------------------------------------------------------------------- *)

Lemma enumerate_metadata_nonneg (metadata : list meta) (i : Z) :
  (i < 0)%Z -> enumerate_metadata metadata !! i = None.
Proof.
  intros Hi. unfold enumerate_metadata. apply not_elem_of_list_to_map.
  intros Hin. apply list_elem_of_fmap in Hin as ([k m] & -> & Hin).
  apply elem_of_lookup_imap in Hin as (n & m' & [= -> ->] & _). simpl in Hi. lia.
Qed.

Lemma insert_by_distance_length e l :
  length (insert_by_distance e l) = S (length l).
Proof.
  induction l as [|e' l IH]; simpl; [done|].
  destruct (Qle_bool e.1 e'.1); simpl; [done|by rewrite IH].
Qed.

Lemma sort_by_distance_length l : length (sort_by_distance l) = length l.
Proof.
  induction l as [|e l IH]; simpl; [done|].
  by rewrite insert_by_distance_length, IH.
Qed.

Lemma mapM_Err {A B} (f : A -> result B) (l : list A) (x : A) (e : error) :
  x ∈ l -> f x = Err e -> exists e', mapM f l = Err e'.
Proof.
  induction l as [|a l IH]; intros Hin Hx; [by apply elem_of_nil in Hin|].
  simpl. destruct (f a) as [b|ea] eqn:Ha; simpl; [|by eexists].
  apply elem_of_cons in Hin as [->|Hin]; [congruence|].
  destruct (IH Hin Hx) as [e' ->]. by eexists.
Qed.

Lemma lookup_labels_missing (metadata : gmap Z meta) (labels : list Z) (i : Z) :
  i ∈ labels -> metadata !! i = None ->
  exists e, lookup_labels metadata labels = Err e.
Proof.
  intros Hin Hnone. unfold lookup_labels.
  eapply (mapM_Err _ _ i (KeyError i)); [done|]. by rewrite Hnone.
Qed.

(** A search for more neighbours than the index holds yields a label -1. *)
Lemma index_search_pads idx query k DI :
  (Z.of_nat (ntotal idx) < k)%Z ->
  index_search idx query k = Ok DI -> (-1)%Z ∈ DI.2.
Proof.
  unfold index_search, ntotal. intros Hk.
  destruct (negb _); [discriminate|]. destruct (negb _); [discriminate|].
  intros [= <-]. simpl. apply elem_of_app. right.
  set (top := take _ _).
  assert (length top <= length (xb idx))%nat.
  { subst top. rewrite length_take, sort_by_distance_length, length_imap. lia. }
  destruct (Z.to_nat k - length top)%nat eqn:Hm; [lia|].
  simpl. apply elem_of_cons. by left.
Qed.

Lemma search_with_index_raises index metadata query k :
  (Z.of_nat (ntotal index) < k)%Z -> metadata !! (-1)%Z = None ->
  exists e, (let* DI := index_search index query k in
             lookup_labels metadata DI.2) = Err e.
Proof.
  intros Hk Hnone.
  destruct (index_search index query k) as [DI|e] eqn:Hs; simpl; [|by eexists].
  eapply lookup_labels_missing; [|done]. by eapply index_search_pads.
Qed.

Lemma search_empty_index_raises index metadata query k :
  xb index = [] -> metadata !! (-1)%Z = None ->
  exists e, (let* DI := index_search index query k in
             lookup_labels metadata DI.2) = Err e.
Proof.
  intros Hxb Hnone. destruct (Z_lt_le_dec 0 k) as [Hk|Hk].
  - apply search_with_index_raises; [|done]. unfold ntotal. rewrite Hxb. simpl. lia.
  - unfold index_search. destruct (negb (length query =? d index)%nat);
      [by eexists|].
    assert ((0 <? k)%Z = false) as -> by (apply Z.ltb_ge; lia).
    simpl. by eexists.
Qed.

Lemma search_padded_raises (query : vector) (top_k : Z)
    (st : service) (index : flat_index) :
  cv_index st = Some index ->
  (Z.of_nat (ntotal index) < top_k)%Z ->
  cv_metadata st !! (-1)%Z = None ->
  exists e, search_similar query top_k "cv" st = Err e.
Proof.
  intros Hidx Hk Hnone. unfold search_similar. rewrite Hidx. simpl.
  by apply search_with_index_raises.
Qed.

Lemma build_cv_index embeddings metadata st0 st :
  build_faiss_index embeddings metadata "cv" st0 = Ok st ->
  cv_index st = Some {| d := dimension st0; xb := embeddings |} /\
  cv_metadata st = enumerate_metadata metadata.
Proof.
  unfold build_faiss_index, np_array_2d, index_add.
  destruct embeddings as [|r rest]; [discriminate|].
  destruct (forallb _ rest); simpl; [|discriminate].
  destruct (_ && _); simpl; [|discriminate].
  by intros [= <-].
Qed.

(** C5. After [build_faiss_index] has stored [n] candidates, a search
    with [top_k > n] does not return those [n]: the library pads the
    label row with -1, the metadata has no entry -1 and the lookup
    raises. *)
Theorem search_beyond_ntotal_raises (embeddings : list vector)
    (metadata : list meta) (st0 st : service) (query : vector) (top_k : Z) :
  build_faiss_index embeddings metadata "cv" st0 = Ok st ->
  (Z.of_nat (length embeddings) < top_k)%Z ->
  exists e, search_similar query top_k "cv" st = Err e.
Proof.
  intros [Hidx Hmeta]%build_cv_index Hk.
  eapply search_padded_raises; [exact Hidx|exact Hk|].
  rewrite Hmeta. by apply enumerate_metadata_nonneg.
Qed.

Lemma search_beyond_ntotal_raises_witness :
  exists e, search_similar [1; 0]%Q 10 "cv" two_cvs = Err e.
Proof.
  apply (search_beyond_ntotal_raises [[1; 0]; [0; 1]]%Q [meta_a; meta_b]
           service_2d two_cvs [1; 0]%Q 10).
  - vm_compute. reflexivity.
  - vm_compute. reflexivity.
Defined.

(** The same input evaluated: two live entries, [top_k = 10]. *)
Example search_two_cvs_top10 :
  search_similar [1; 0]%Q 10 "cv" two_cvs = Err (KeyError (-1)).
Proof. vm_compute. reflexivity. Qed.

(** The same with rows of 384 components, on the service as it is
    created. *)
Example search_384_top10 :
  build_faiss_index [axis 0; axis 1] [meta_a; meta_b] "cv" init_service =
    Ok two_cvs_384 /\
  search_similar (axis 0) 10 "cv" two_cvs_384 = Err (KeyError (-1)).
Proof. split; vm_compute; reflexivity. Qed.

Example search_two_cvs_top2 :
  search_similar [1; 0]%Q 2 "cv" two_cvs = Ok [meta_a; meta_b].
Proof. vm_compute. reflexivity. Qed.

(** C6. A search against an index that is absent, or present but empty,
    returns no results: it raises, for every query and every [top_k],
    for the candidate index and for the posting index alike. *)
Theorem search_unready_raises (query : vector) (top_k : Z) (st : service) :
  (unready (cv_index st) (cv_metadata st) ->
     exists e, search_similar query top_k "cv" st = Err e) /\
  (unready (job_index st) (job_metadata st) ->
     exists e, search_similar query top_k "job" st = Err e).
Proof.
  unfold search_similar, unready. split.
  - destruct (cv_index st) as [idx|]; simpl.
    + intros [Hxb Hnone]. by apply search_empty_index_raises.
    + intros _. by eexists.
  - destruct (job_index st) as [idx|]; simpl.
    + intros [Hxb Hnone]. by apply search_empty_index_raises.
    + intros _. by eexists.
Qed.

Lemma search_unready_raises_witness :
  search_similar [1; 0]%Q 5 "cv" init_service = Err index_missing /\
  exists e, search_similar [1; 0]%Q 5 "job" init_service = Err e.
Proof.
  split; [reflexivity|].
  apply (search_unready_raises [1; 0]%Q 5 init_service). exact I.
Defined.

Lemma strip_eqb_blank s : String.eqb (strip s) "" = all_space s.
Proof.
  destruct (all_space s) eqn:Hs.
  - apply String.eqb_eq. by apply strip_empty_iff.
  - apply String.eqb_neq. intros H%strip_empty_iff. congruence.
Qed.

(** C7. When the text assembled from a candidate or a posting consists
    of white space only, [create_cv_embedding] and [create_job_embedding]
    raise (the error reaches the caller) and the encoder is not called;
    conversely every vector they return is the encoding of a text that
    is not blank. *)
Theorem blank_document_rejected (encode : string -> vector)
    (cv : cv_data) (job : job_data) :
  (all_space (cv_text cv) = true ->
     create_cv_embedding encode cv = (Err cv_text_error, [])) /\
  (all_space (job_text job) = true ->
     create_job_embedding encode job = (Err job_text_error, [])) /\
  (forall v calls, create_cv_embedding encode cv = (Ok v, calls) ->
     all_space (cv_text cv) = false /\ calls = [cv_text cv] /\
     v = encode (cv_text cv)) /\
  (forall v calls, create_job_embedding encode job = (Ok v, calls) ->
     all_space (job_text job) = false /\ calls = [job_text job] /\
     v = encode (job_text job)).
Proof.
  unfold create_cv_embedding, create_job_embedding.
  rewrite !strip_eqb_blank. repeat split.
  - by intros ->.
  - by intros ->.
  - by destruct (all_space (cv_text cv)).
  - destruct (all_space (cv_text cv)); congruence.
  - destruct (all_space (cv_text cv)); congruence.
  - by destruct (all_space (job_text job)).
  - destruct (all_space (job_text job)); congruence.
  - destruct (all_space (job_text job)); congruence.
Qed.

(** A candidate whose only content is a raw text of three spaces, and a
    posting with no content at all. *)
Definition blank_cv : cv_data :=
  {| cv_personal_info := {| name := None; email := None |};
     cv_education := []; cv_experience := []; cv_skills := [];
     cv_raw_text := "   " |}.

Definition blank_job : job_data :=
  {| job_id := "job-1"; title := ""; job_company := "";
     job_description := ""; required_skills := [] |}.

Lemma blank_document_rejected_witness :
  create_cv_embedding (fun _ => [0; 0]%Q) blank_cv = (Err cv_text_error, []) /\
  create_job_embedding (fun _ => [0; 0]%Q) blank_job = (Err job_text_error, []).
Proof.
  destruct (blank_document_rejected (fun _ => [0; 0]%Q) blank_cv blank_job)
    as (Hcv & Hjob & _).
  split; [apply Hcv|apply Hjob]; reflexivity.
Defined.

Lemma append_neq (s t : string) : t <> "" -> s +:+ t <> s.
Proof.
  intros Ht. induction s as [|c s IH]; simpl; [done|].
  intros [= H]. by apply IH.
Qed.

Lemma load_saved_cv path st st0 fs index :
  cv_index st = Some index ->
  load_index path "cv" st0 (save_index path "cv" st fs) =
    (None, {| dimension := dimension st0;
              cv_index := Some index; job_index := job_index st0;
              cv_metadata := cv_metadata st;
              job_metadata := job_metadata st0 |}).
Proof.
  intros Hidx. unfold load_index, save_index, read_index, read_pickle.
  rewrite Hidx. simpl.
  rewrite lookup_insert_ne by (by apply append_neq).
  by rewrite !lookup_insert_eq.
Qed.

Lemma load_saved_job path st st0 fs index :
  job_index st = Some index ->
  load_index path "job" st0 (save_index path "job" st fs) =
    (None, {| dimension := dimension st0;
              cv_index := cv_index st0; job_index := Some index;
              cv_metadata := cv_metadata st0;
              job_metadata := job_metadata st |}).
Proof.
  intros Hidx. unfold load_index, save_index, read_index, read_pickle.
  rewrite Hidx. simpl. destruct (cv_index st); simpl.
  all: rewrite lookup_insert_ne by (by apply append_neq).
  all: by rewrite !lookup_insert_eq.
Qed.

(** C9, as the code has it. When the index of the requested type is
    present, [save_index] followed by [load_index] at the same path, into
    any service, restores that index and its metadata, and every search
    answers as it did before saving. *)
Theorem save_load_roundtrip (path : string) (st st0 : service)
    (fs : filesystem) (query : vector) (top_k : Z) :
  (is_Some (cv_index st) ->
     let loaded := load_index path "cv" st0 (save_index path "cv" st fs) in
     loaded.1 = None /\
     search_similar query top_k "cv" loaded.2 =
       search_similar query top_k "cv" st) /\
  (is_Some (job_index st) ->
     let loaded := load_index path "job" st0 (save_index path "job" st fs) in
     loaded.1 = None /\
     search_similar query top_k "job" loaded.2 =
       search_similar query top_k "job" st).
Proof.
  split; intros [index Hidx] loaded; subst loaded.
  - rewrite (load_saved_cv _ _ _ _ _ Hidx). split; [done|].
    unfold search_similar. simpl. by rewrite Hidx.
  - rewrite (load_saved_job _ _ _ _ _ Hidx). split; [done|].
    unfold search_similar. simpl. by rewrite Hidx.
Qed.

Lemma save_load_roundtrip_witness :
  search_similar [1; 0]%Q 2 "cv"
    (load_index "cv.index" "cv" init_service
       (save_index "cv.index" "cv" two_cvs ∅)).2 =
  Ok [meta_a; meta_b].
Proof.
  destruct (save_load_roundtrip "cv.index" two_cvs init_service ∅ [1; 0]%Q 2)
    as [Hcv _].
  destruct Hcv as [_ ->]; [by eexists|]. vm_compute. reflexivity.
Defined.

(** An earlier snapshot of [two_cvs] lies at the path; the service has
    since lost its index (as after [__init__] or a reindex). *)
Definition stale_fs : filesystem := save_index "cv.index" "cv" two_cvs ∅.

(** C9 as stated fails where no index is present: [save_index] writes
    nothing, [load_index] then reads the older files, and a search that
    raised before the round trip returns entries after it. *)
Lemma save_load_absent_index_differs :
  ~ (forall (st : service) (fs : filesystem) (path : string)
            (query : vector) (top_k : Z),
       search_similar query top_k "cv"
         (load_index path "cv" st (save_index path "cv" st fs)).2 =
       search_similar query top_k "cv" st).
Proof.
  intros H.
  specialize (H service_2d stale_fs "cv.index" [1; 0]%Q 2%Z).
  vm_compute in H. discriminate H.
Qed.

(* --------------------------------------------------------------------- *)
(* Further properties of the embedding service                           *)
(* --------------------------------------------------------------------- *)

Lemma forallb_length_eq (rows : list vector) (n : nat) :
  forallb (fun r => (length r =? n)%nat) rows = true <->
  Forall (fun r => length r = n) rows.
Proof.
  rewrite forallb_forall, Forall_forall. split; intros H r Hr.
  - apply Nat.eqb_eq, H. by apply list_elem_of_In.
  - apply Nat.eqb_eq, H. by apply list_elem_of_In.
Qed.

(** [build_faiss_index] succeeds exactly when at least one embedding is
    given and every embedding has the dimension of the service; an empty
    list, ragged rows and a wrong dimension all raise. *)
Theorem build_succeeds_iff (embeddings : list vector) (metadata : list meta)
    (index_type : string) (st : service) :
  (exists st', build_faiss_index embeddings metadata index_type st = Ok st') <->
  embeddings <> [] /\
  Forall (fun r => length r = dimension st) embeddings.
Proof.
  unfold build_faiss_index, np_array_2d, index_add. split.
  - intros [st' H]. destruct embeddings as [|r rest]; [discriminate|].
    split; [done|].
    destruct (forallb _ rest); cbn [bind d] in H; [|discriminate].
    destruct (forallb (fun r0 => (length r0 =? dimension st)%nat) (r :: rest))
      eqn:Hd; cbn [bind] in H; [|discriminate].
    by apply forallb_length_eq in Hd.
  - intros [Hne Hall]. destruct embeddings as [|r rest]; [done|].
    assert (Hrest : forallb (fun r' => (length r' =? length r)%nat) rest = true).
    { apply forallb_length_eq. inversion Hall as [|? ? Hr Hrest']; subst.
      eapply Forall_impl; [exact Hrest'|]. simpl. intros; congruence. }
    rewrite Hrest. cbn [bind d].
    apply forallb_length_eq in Hall. rewrite Hall. cbn [bind].
    destruct (String.eqb index_type "cv"); by eexists.
Qed.

Lemma build_succeeds_iff_witness :
  exists st', build_faiss_index [[1; 0]; [0; 1]]%Q [meta_a] "cv" service_2d = Ok st'.
Proof.
  apply (build_succeeds_iff [[1; 0]; [0; 1]]%Q [meta_a] "cv" service_2d).
  split; [discriminate|]. repeat constructor.
Defined.

(** A successful build replaces one index with its metadata and leaves
    the other pair alone; every [index_type] other than "cv", whatever
    its spelling, replaces the posting index. *)
Theorem build_replaces_one_index (embeddings : list vector)
    (metadata : list meta) (index_type : string) (st st' : service) :
  build_faiss_index embeddings metadata index_type st = Ok st' ->
  dimension st' = dimension st /\
  (index_type = "cv" ->
     cv_index st' = Some {| d := dimension st; xb := embeddings |} /\
     cv_metadata st' = enumerate_metadata metadata /\
     job_index st' = job_index st /\ job_metadata st' = job_metadata st) /\
  (index_type <> "cv" ->
     job_index st' = Some {| d := dimension st; xb := embeddings |} /\
     job_metadata st' = enumerate_metadata metadata /\
     cv_index st' = cv_index st /\ cv_metadata st' = cv_metadata st).
Proof.
  unfold build_faiss_index, np_array_2d, index_add.
  destruct embeddings as [|r rest]; [discriminate|].
  destruct (forallb _ rest); simpl; [|discriminate].
  destruct (_ && _); simpl; [|discriminate].
  destruct (String.eqb_spec index_type "cv") as [->|Hne]; intros [= <-]; simpl.
  - split; [done|]. split; [done|]. intros H. by destruct H.
  - split; [done|]. split; [done|]. done.
Qed.

Lemma build_replaces_one_index_witness :
  exists st', build_faiss_index [[1; 0]]%Q [meta_a] "CV" two_cvs = Ok st' /\
    cv_index st' = cv_index two_cvs /\
    job_index st' = Some {| d := 2; xb := [[1; 0]]%Q |}.
Proof.
  destruct (build_faiss_index [[1; 0]]%Q [meta_a] "CV" two_cvs)
    as [st'|e] eqn:H.
  - exists st'. split; [reflexivity|].
    destruct (build_replaces_one_index _ _ _ _ _ H) as (_ & _ & Hjob).
    destruct Hjob as (Hj & _ & Hc & _); [discriminate|].
    split; [exact Hc|exact Hj].
  - vm_compute in H. discriminate H.
Defined.






(** The labels that a search reports, as positions. *)
Definition scored (query : vector) (rows : list vector) : list (Q * Z) :=
  imap (fun i x => (l2_sqr query x, Z.of_nat i)) rows.





(** With an index present, a query of another dimension or a [top_k]
    that is not positive raises AssertionError, whatever the index
    holds. *)
Theorem search_bad_arguments (query : vector) (top_k : Z) (st : service)
    (index : flat_index) :
  cv_index st = Some index ->
  length query <> d index \/ (top_k <= 0)%Z ->
  search_similar query top_k "cv" st = Err AssertionError.
Proof.
  intros Hidx H. unfold search_similar, index_search. rewrite Hidx. simpl.
  destruct (Nat.eqb_spec (length query) (d index)) as [Hd|Hd]; simpl; [|done].
  destruct H as [H|H]; [done|].
  assert ((0 <? top_k)%Z = false) as -> by (apply Z.ltb_ge; lia). done.
Qed.

Lemma search_bad_arguments_witness :
  search_similar [1; 0; 0]%Q 1 "cv" two_cvs = Err AssertionError /\
  search_similar [1; 0]%Q 0 "cv" two_cvs = Err AssertionError.
Proof.
  split.
  - apply (search_bad_arguments _ _ _ {| d := 2; xb := [[1; 0]; [0; 1]]%Q |});
      [reflexivity|left; discriminate].
  - apply (search_bad_arguments _ _ _ {| d := 2; xb := [[1; 0]; [0; 1]]%Q |});
      [reflexivity|right; lia].
Defined.

(** A metadata file that is missing when the index file is there makes
    [load_index] raise after the index has been replaced: the service is
    left with the loaded index and the metadata it had before. *)
Theorem load_without_metadata (path : string) (st : service)
    (fs : filesystem) (index : flat_index) :
  fs !! path = Some (IndexFile index) ->
  fs !! (path +:+ ".meta") = None ->
  let r := load_index path "cv" st fs in
  r.1 = Some (FileNotFoundError (path +:+ ".meta")) /\
  cv_index r.2 = Some index /\
  cv_metadata r.2 = cv_metadata st /\
  job_index r.2 = job_index st /\ job_metadata r.2 = job_metadata st.
Proof.
  intros Hidx Hmeta r. subst r.
  unfold load_index, read_index, read_pickle. simpl.
  rewrite Hidx, Hmeta. done.
Qed.

Lemma load_without_metadata_witness :
  cv_metadata
    (load_index "new.index" "cv" two_cvs
       {[ "new.index" := IndexFile {| d := 2; xb := [[5; 5]]%Q |} ]}).2 =
  cv_metadata two_cvs.
Proof.
  destruct (load_without_metadata "new.index" two_cvs
              {[ "new.index" := IndexFile {| d := 2; xb := [[5; 5]]%Q |} ]}
              {| d := 2; xb := [[5; 5]]%Q |}) as (_ & _ & H & _);
    [reflexivity|reflexivity|exact H].
Defined.

(** An [index_type] that is neither "cv" nor "job" is silently ignored
    by saving and loading (nothing is written, nothing is changed, no
    error is raised), while a search with it raises. *)
Theorem unknown_index_type (index_type path : string) (st : service)
    (fs : filesystem) (query : vector) (top_k : Z) :
  index_type <> "cv" -> index_type <> "job" ->
  save_index path index_type st fs = fs /\
  load_index path index_type st fs = (None, st) /\
  search_similar query top_k index_type st = Err index_missing.
Proof.
  intros Hcv%String.eqb_neq Hjob%String.eqb_neq.
  unfold save_index, load_index, search_similar. rewrite Hcv, Hjob.
  repeat split; by destruct (cv_index st), (job_index st).
Qed.

Lemma unknown_index_type_witness :
  save_index "x.index" "CV" two_cvs ∅ = ∅ /\
  load_index "x.index" "CV" two_cvs ∅ = (None, two_cvs) /\
  search_similar [1; 0]%Q 1 "CV" two_cvs = Err index_missing.
Proof.
  apply (unknown_index_type "CV" "x.index" two_cvs ∅ [1; 0]%Q 1); discriminate.
Defined.

(** Saving the candidate index and then the posting index under one
    path leaves only the posting snapshot there: loading that path as
    the candidate index installs the posting index and its metadata. *)
Theorem save_same_path_overwrites (path : string) (st st0 : service)
    (fs : filesystem) (cv_idx job_idx : flat_index) :
  cv_index st = Some cv_idx -> job_index st = Some job_idx ->
  let fs' := save_index path "job" st (save_index path "cv" st fs) in
  let r := load_index path "cv" st0 fs' in
  r.1 = None /\ cv_index r.2 = Some job_idx /\
  cv_metadata r.2 = job_metadata st.
Proof.
  intros Hcv Hjob fs' r. subst r fs'.
  unfold load_index, save_index, read_index, read_pickle.
  rewrite Hcv, Hjob. simpl.
  rewrite lookup_insert_ne by (by apply append_neq).
  rewrite lookup_insert_eq. by rewrite lookup_insert_eq.
Qed.

Definition cv_and_job : service :=
  {| dimension := 2;
     cv_index := Some {| d := 2; xb := [[1; 0]]%Q |};
     job_index := Some {| d := 2; xb := [[0; 1]]%Q |};
     cv_metadata := enumerate_metadata [meta_a];
     job_metadata := enumerate_metadata [meta_b] |}.

Lemma save_same_path_overwrites_witness :
  cv_metadata
    (load_index "all.index" "cv" init_service
       (save_index "all.index" "job" cv_and_job
          (save_index "all.index" "cv" cv_and_job ∅))).2 =
  enumerate_metadata [meta_b].
Proof.
  destruct (save_same_path_overwrites "all.index" cv_and_job init_service ∅
              {| d := 2; xb := [[1; 0]]%Q |} {| d := 2; xb := [[0; 1]]%Q |})
    as (_ & _ & H); [reflexivity|reflexivity|exact H].
Defined.

Lemma raw_part_blank (raw : string) :
  forallb all_space (if nonempty raw then [take_chars 1000 raw] else []) =
  all_space (take_chars 1000 raw).
Proof.
  destruct raw as [|c r]; [reflexivity|].
  change (nonempty (String c r)) with true. cbn [forallb].
  apply andb_true_r.
Qed.

Lemma cv_text_blank (cv : cv_data) :
  all_space (cv_text cv) = true <->
  (name (cv_personal_info cv) = None \/ name (cv_personal_info cv) = Some "") /\
  cv_education cv = [] /\ cv_experience cv = [] /\ cv_skills cv = [] /\
  all_space (take_chars 1000 (cv_raw_text cv)) = true.
Proof.
  unfold cv_text. rewrite all_space_join. unfold cv_text_parts.
  rewrite !forallb_app, raw_part_blank.
  destruct (name (cv_personal_info cv)) as [[|c n]|];
    destruct (cv_education cv) as [|e es];
    destruct (cv_experience cv) as [|x xs];
    destruct (cv_skills cv) as [|s ss];
    cbn [forallb nonempty negb String.eqb andb];
    repeat match goal with
           | |- context [all_space (?label +:+ ?rest)] =>
               change (all_space (label +:+ rest)) with false
           end;
    cbn [andb]; split;
    try (intros H; discriminate H);
    try (intros (H1 & H2 & H3 & H4 & H5); (discriminate || (destruct H1; discriminate)));
    try (intros H; repeat split; auto; fail);
    try (intros (_ & _ & _ & _ & H); exact H).
Qed.

(** [create_cv_embedding] raises exactly for a candidate with no name,
    no education, no experience and no skills whose raw text is white
    space throughout its first 1000 characters; what follows those
    characters is never looked at. *)
Theorem cv_embedding_raises_iff (encode : string -> vector) (cv : cv_data) :
  (create_cv_embedding encode cv).1 = Err cv_text_error <->
  (name (cv_personal_info cv) = None \/ name (cv_personal_info cv) = Some "") /\
  cv_education cv = [] /\ cv_experience cv = [] /\ cv_skills cv = [] /\
  all_space (take_chars 1000 (cv_raw_text cv)) = true.
Proof.
  rewrite <- cv_text_blank. unfold create_cv_embedding.
  rewrite strip_eqb_blank. destruct (all_space (cv_text cv)); simpl.
  - tauto.
  - split; discriminate.
Qed.

Lemma cv_embedding_raises_iff_witness :
  (create_cv_embedding (fun _ => [0; 0]%Q) blank_cv).1 = Err cv_text_error.
Proof.
  apply (cv_embedding_raises_iff (fun _ => [0; 0]%Q) blank_cv).
  repeat split; try reflexivity. by left.
Defined.

Lemma job_text_blank (job : job_data) :
  all_space (job_text job) = true <->
  title job = "" /\ job_company job = "" /\ job_description job = "" /\
  required_skills job = [].
Proof.
  unfold job_text. rewrite all_space_join. unfold job_text_parts.
  rewrite !forallb_app.
  destruct (title job) as [|c1 t];
    destruct (job_company job) as [|c2 co];
    destruct (job_description job) as [|c3 de];
    destruct (required_skills job) as [|s ss];
    cbn [forallb nonempty negb String.eqb andb];
    repeat match goal with
           | |- context [all_space (?label +:+ ?rest)] =>
               change (all_space (label +:+ rest)) with false
           end;
    cbn [andb]; split;
    try (intros H; discriminate H);
    try (intros (H1 & H2 & H3 & H4); discriminate);
    try (intros H; repeat split; auto; fail).
Qed.

(** [create_job_embedding] raises exactly for a posting without title,
    company, description and required skills; a posting that has any of
    them is always encoded, however little text that is. *)
Theorem job_embedding_raises_iff (encode : string -> vector) (job : job_data) :
  (create_job_embedding encode job).1 = Err job_text_error <->
  title job = "" /\ job_company job = "" /\ job_description job = "" /\
  required_skills job = [].
Proof.
  rewrite <- job_text_blank. unfold create_job_embedding.
  rewrite strip_eqb_blank. destruct (all_space (job_text job)); simpl.
  - tauto.
  - split; discriminate.
Qed.

Lemma job_embedding_raises_iff_witness :
  (create_job_embedding (fun _ => [0; 0]%Q) blank_job).1 = Err job_text_error.
Proof.
  apply (job_embedding_raises_iff (fun _ => [0; 0]%Q) blank_job).
  repeat split; reflexivity.
Defined.

End Embedding.

(* ===================================================================== *)
(* Reindexing                                                            *)
(* ===================================================================== *)

Module Reindex.
Import Records Embedding.

(** A document of the [cvs] collection. *)
Record cv_doc := {
  cv_id : string;
  parsed_data : cv_data
}.

(** A database cursor consumed by [async for]: it yields a document, or
    ends, or the read fails. *)
Inductive cursor (A : Type) :=
| Done
| Next (doc : A) (rest : cursor A)
| Fails.
Arguments Done {A}.
Arguments Next {A} doc rest.
Arguments Fails {A}.

Inductive response :=
| Reindexed (indexed_cvs indexed_jobs : nat)
| ServerError500.

(** What a run of the handler leaves behind: the response, the service
    at the end, and the service as it stood at each point where the
    handler waited on the database, in order; there other requests run
    against it. *)
Record run := {
  resp : response;
  final : service;
  observed : list service
}.

(** "Mevcut index'leri temizle": the four assignments that open the
    handler. *)
Definition clear (st : service) : service :=
  {| dimension := dimension st;
     cv_index := None; job_index := None;
     cv_metadata := ∅; job_metadata := ∅ |}.

Section Handler.

(** [add_cv_to_index] and [add_job_to_index] are called on the service
    but are not part of the service source; they are parameters here. Each
    gives the exception raised, if any, and the service afterwards. *)
Variable add_cv_to_index : string -> cv_data -> service -> option error * service.
Variable add_job_to_index : string -> job_data -> service -> option error * service.

(** One [async for] loop with its [try]/[except] body. The result is the
    count when the cursor ends, [None] when reading it fails, together
    with the service and the states seen at each fetch. *)
Fixpoint index_all {A : Type} (add : A -> service -> option error * service)
    (docs : cursor A) (count : nat) (st : service)
    : option nat * service * list service :=
  match docs with
  | Done => (Some count, st, [st])
  | Fails => (None, st, [st])
  | Next doc rest =>
      let '(raised, st') := add doc st in
      let count' := match raised with
                    | None => S count
                    | Some _ => count
                    end in
      let '(r, st'', seen) := index_all add rest count' st' in
      (r, st'', st :: seen)
  end.

(** [reindex_embeddings] *)
Definition reindex_embeddings (st : service) (cvs : cursor cv_doc)
    (jobs : cursor job_data) : run :=
  let st0 := clear st in
  let '(cv_count, st1, seen1) :=
    index_all (fun cv => add_cv_to_index (cv_id cv) (parsed_data cv)) cvs 0 st0 in
  match cv_count with
  | None => {| resp := ServerError500; final := st1; observed := seen1 |}
  | Some cv_count =>
      let '(job_count, st2, seen2) :=
        index_all (fun job => add_job_to_index (job_id job) job) jobs 0 st1 in
      match job_count with
      | None => {| resp := ServerError500; final := st2;
                   observed := seen1 ++ seen2 |}
      | Some job_count =>
          {| resp := Reindexed cv_count job_count; final := st2;
             observed := seen1 ++ seen2 |}
      end
  end.

End Handler.


(** A cursor that yields the given documents and then ends. *)
Fixpoint cursor_of_list {A : Type} (docs : list A) : cursor A :=
  match docs with
  | [] => Done
  | doc :: rest => Next doc (cursor_of_list rest)
  end.

(** The number of documents whose add goes through, the adds being run
    one after the other on the service. *)
Fixpoint added {A : Type} (add : A -> service -> option error * service)
    (docs : list A) (st : service) : nat :=
  match docs with
  | [] => 0
  | doc :: rest =>
      let '(raised, st') := add doc st in
      match raised with
      | None => S (added add rest st')
      | Some _ => added add rest st'
      end
  end.

(** The service after the adds have been run one after the other,
    whether they raised or not. *)
Fixpoint run_adds {A : Type} (add : A -> service -> option error * service)
    (docs : list A) (st : service) : service :=
  match docs with
  | [] => st
  | doc :: rest => run_adds add rest (add doc st).2
  end.

(* --------------------------------------------------------------------- *)
(* Properties                                                            *)
(* --------------------------------------------------------------------- *)


Lemma clear_clear st : clear (clear st) = clear st.
Proof. reflexivity. Qed.



(* --------------------------------------------------------------------- *)
(* Further properties of the reindex handler                             *)
(* --------------------------------------------------------------------- *)

Lemma index_all_list {A} (add : A -> service -> option error * service)
    (docs : list A) (count : nat) (st : service) :
  (index_all add (cursor_of_list docs) count st).1 =
    (Some (count + added add docs st)%nat, run_adds add docs st) /\
  length (index_all add (cursor_of_list docs) count st).2 = S (length docs).
Proof.
  revert count st. induction docs as [|doc rest IH]; intros count st; simpl.
  - split; [do 2 f_equal; lia|done].
  - destruct (add doc st) as [raised st'].
    destruct raised as [e|].
    + destruct (IH count st') as [H1 H2].
      destruct (index_all add (cursor_of_list rest) count st')
        as [[r st''] seen]. simpl in *. by rewrite H1, H2.
    + destruct (IH (S count) st') as [H1 H2].
      destruct (index_all add (cursor_of_list rest) (S count) st')
        as [[r st''] seen]. simpl in *. rewrite H1, H2.
      split; [do 2 f_equal; lia|done].
Qed.

Lemma added_le {A} (add : A -> service -> option error * service)
    (docs : list A) (st : service) :
  (added add docs st <= length docs)%nat.
Proof.
  revert st. induction docs as [|doc rest IH]; intros st; simpl; [lia|].
  destruct (add doc st) as [[e|] st']; specialize (IH st'); lia.
Qed.

(** When both cursors can be read to the end the rebuild never fails: a
    record whose add raises is skipped and the following ones are still
    processed. The response carries exactly the number of candidate adds
    that went through, run from the cleared service, and the number of
    posting adds that went through, run from the service the candidate
    loop left; each is at most the number of records. The service ends
    as the two loops left it, and the handler waits on the database once
    per record and once more at the end of each cursor. *)
Theorem reindex_skips_failures add_cv add_job (st : service)
    (cvs : list cv_doc) (jobs : list job_data) :
  let r := reindex_embeddings add_cv add_job st
             (cursor_of_list cvs) (cursor_of_list jobs) in
  let add_cv_doc := fun cv => add_cv (cv_id cv) (parsed_data cv) in
  let add_job_doc := fun job => add_job (job_id job) job in
  let st1 := run_adds add_cv_doc cvs (clear st) in
  resp r = Reindexed (added add_cv_doc cvs (clear st))
                     (added add_job_doc jobs st1) /\
  final r = run_adds add_job_doc jobs st1 /\
  (added add_cv_doc cvs (clear st) <= length cvs)%nat /\
  (added add_job_doc jobs st1 <= length jobs)%nat /\
  length (observed r) = (length cvs + length jobs + 2)%nat.
Proof.
  intros r add_cv_doc add_job_doc st1. subst r st1.
  unfold reindex_embeddings. fold add_cv_doc. fold add_job_doc.
  destruct (index_all_list add_cv_doc cvs 0 (clear st)) as [Hc Hlc].
  destruct (index_all add_cv_doc (cursor_of_list cvs) 0 (clear st))
    as [[c st1] seen1].
  simpl in Hc, Hlc. injection Hc as -> ->.
  destruct (index_all_list add_job_doc jobs 0
              (run_adds add_cv_doc cvs (clear st))) as [Hj Hlj].
  destruct (index_all add_job_doc (cursor_of_list jobs) 0
              (run_adds add_cv_doc cvs (clear st))) as [[j st2] seen2].
  simpl in Hj, Hlj. injection Hj as -> ->. simpl.
  split; [reflexivity|]. split; [reflexivity|].
  split; [apply added_le|]. split; [apply added_le|].
  rewrite length_app. lia.
Qed.

(** When the posting cursor cannot be read the request ends in 500, yet
    the candidates added before stay in the service: the final state is
    the one the candidate loop produced. *)
Theorem reindex_job_cursor_fails add_cv add_job (st : service)
    (cvs : list cv_doc) :
  let r := reindex_embeddings add_cv add_job st (cursor_of_list cvs) Fails in
  resp r = ServerError500 /\
  final r = run_adds (fun cv => add_cv (cv_id cv) (parsed_data cv)) cvs (clear st).
Proof.
  intros r. subst r. unfold reindex_embeddings.
  destruct (index_all_list (fun cv => add_cv (cv_id cv) (parsed_data cv))
              cvs 0 (clear st)) as [Hc _].
  destruct (index_all (fun cv => add_cv (cv_id cv) (parsed_data cv))
              (cursor_of_list cvs) 0 (clear st)) as [[c st1] seen1].
  simpl in Hc. injection Hc as -> ->. simpl. done.
Qed.

End Reindex.

(* ===================================================================== *)
(* Skill overlap and candidate search                                    *)
(* ===================================================================== *)

Module Matching.
Import Text Numeric Records.

(* --------------------------------------------------------------------- *)
(* web_app.add_cv: the best posting for a new candidate                  *)
(* --------------------------------------------------------------------- *)

(** [set(job_skills) & set(cv_skills)] *)
Definition matched_skills (job_skills cv_skills : list string) : gset string :=
  list_to_set job_skills ∩ list_to_set cv_skills.

(** The [score] of one posting in the loop of [add_cv]; a posting with
    no required skills gets none. The skill names are compared as they
    are written. *)
Definition skill_score (job_skills cv_skills : list string) : option Q :=
  match job_skills with
  | [] => None
  | _ => Some (ratio (size (matched_skills job_skills cv_skills))
                     (length job_skills) * 100)%Q
  end.

(** The loop over the postings: [(best_match, best_score)], replaced
    only by a strictly higher score. *)
Definition best_match (jobs : list job_data) (cv_skills : list string)
    : option job_data * Q :=
  fold_left
    (fun best job =>
       match skill_score (required_skills job) cv_skills with
       | Some score =>
           if Qlt_bool best.2 score then (Some job, score) else best
       | None => best
       end)
    jobs (None, 0%Q).

(* --------------------------------------------------------------------- *)
(* demo_app.simple_match                                                 *)
(* --------------------------------------------------------------------- *)

Record demo_cv := {
  demo_cv_id : Z;
  demo_name : option string;
  demo_skills : list string;
  demo_experience_years : Z
}.

Record demo_job := {
  demo_job_id : Z;
  demo_required_skills : list string
}.

(** [set(skill.lower() for skill in skills)] *)
Definition lower_set (skills : list string) : gset string :=
  list_to_set (map lower skills).

(** One entry of [matches]. Python sets have no order, so the three
    skill lists are kept as sets. *)
Record demo_match := {
  dm_cv_id : Z;
  candidate_name : string;
  match_percentage : Q;
  dm_matched_skills : gset string;
  missing_skills : gset string;
  extra_skills : gset string;
  dm_experience_years : Z;
  dm_cv : demo_cv
}.

(** [len(matched_skills) / len(job_skills) * 100 if job_skills else 0] *)
Definition percentage (job_skills cv_skills : gset string) : Q :=
  if decide (job_skills = ∅) then 0%Q
  else (ratio (size (job_skills ∩ cv_skills)) (size job_skills) * 100)%Q.

Definition match_cv (job_skills : gset string) (cv : demo_cv) : demo_match :=
  let cv_skills := lower_set (demo_skills cv) in
  {| dm_cv_id := demo_cv_id cv;
     candidate_name := default "İsimsiz" (demo_name cv);
     match_percentage := py_round (percentage job_skills cv_skills) 1;
     dm_matched_skills := job_skills ∩ cv_skills;
     missing_skills := job_skills ∖ cv_skills;
     extra_skills := cv_skills ∖ job_skills;
     dm_experience_years := demo_experience_years cv;
     dm_cv := cv |}.

(** [matches.sort(key=..., reverse=True)]: stable, highest first. *)
Fixpoint insert_match (m : demo_match) (l : list demo_match) : list demo_match :=
  match l with
  | [] => [m]
  | m' :: l' =>
      if Qle_bool (match_percentage m') (match_percentage m) then m :: l
      else m' :: insert_match m l'
  end.

Definition sort_matches (l : list demo_match) : list demo_match :=
  foldr insert_match [] l.

Record demo_response := {
  dr_job : demo_job;
  dr_matches : list demo_match;
  total_candidates : nat;
  total_cvs_checked : nat
}.

(** [simple_match]: [None] is the 404 for an unknown posting. *)
Definition simple_match (demo_jobs : list demo_job) (demo_cvs : list demo_cv)
    (job_id : Z) : option demo_response :=
  match List.find (fun j => (demo_job_id j =? job_id)%Z) demo_jobs with
  | None => None
  | Some job =>
      let job_skills := lower_set (demo_required_skills job) in
      let matches :=
        List.filter
          (fun m => Qlt_bool 0 (percentage job_skills
                                  (lower_set (demo_skills (dm_cv m)))))
          (map (match_cv job_skills) demo_cvs) in
      let sorted := sort_matches matches in
      Some {| dr_job := job; dr_matches := sorted;
              total_candidates := length sorted;
              total_cvs_checked := length demo_cvs |}
  end.

(* --------------------------------------------------------------------- *)
(* job_router.advanced_job_search                                        *)
(* --------------------------------------------------------------------- *)

(** [search_params] after the [.get] defaults. *)
Record search_params := {
  top_k : Z;
  min_score : Q;
  sp_required_skills : list string;
  experience_years : Z;
  education_level : string
}.

Definition default_search_params : search_params :=
  {| top_k := 20; min_score := 50; sp_required_skills := [];
     experience_years := 0; education_level := "" |}.

(** [sum(1 for skill in required_skills if skill.lower() in cv_skills)]
    with [cv_skills] the lower-cased candidate skills. *)
Definition required_matched (required cv_skills : list string) : nat :=
  length (filter (fun skill => lower skill ∈ map lower cv_skills) required).

(** The skill filter: [false] is the [continue]. *)
Definition skill_filter (required : list string) (cv : cv_data) : bool :=
  match required with
  | [] => true
  | _ =>
      negb (Qlt_bool
              (inject_Z (Z.of_nat (required_matched required (cv_skills cv))))
              (inject_Z (Z.of_nat (length required)) * (7 # 10))%Q)
  end.

Definition experience_filter (years : Z) (cv : cv_data) : bool :=
  if (0 <? years)%Z
  then negb (Z.of_nat (length (cv_experience cv)) <? years)%Z
  else true.

Definition education_filter (level : string) (cv : cv_data) : bool :=
  if String.eqb level "" then true
  else existsb (fun edu => contains (lower level) (lower (degree edu)))
               (cv_education cv).

(** The body of the filtering loop for one candidate. *)
Definition keep (params : search_params) (m : string * Q * cv_data) : bool :=
  let '(_, score, cv) := m in
  negb (Qlt_bool score (min_score params))
  && skill_filter (sp_required_skills params) cv
  && experience_filter (experience_years params) cv
  && education_filter (education_level params) cv.

(** [l[:k]] for a Python int [k]. *)
Definition slice_to {A : Type} (k : Z) (l : list A) : list A :=
  if (0 <=? k)%Z then take (Z.to_nat k) l
  else take (length l - Z.to_nat (- k)) l.

Section Search.

(** The result of [analyze_match_details]. *)
Variable details : Type.

(** What the attribute lookups [embedding_service.find_matching_cvs]
    and [embedding_service.analyze_match_details] give: [None] is the
    AttributeError. The class [EmbeddingService] of embedding_service.py
    defines neither method, so for the service of this repository both
    lookups are [None]. *)
Variable find_matching_cvs
  : option (job_data -> Z -> list (string * Q * cv_data)).
Variable analyze_match_details : option (cv_data -> job_data -> details).

Record search_result := {
  sr_cv_id : string;
  similarity_score : Q;
  sr_candidate_name : string;
  candidate_email : string;
  match_details : details
}.

(** The answers of the handler: the [matches] of the response, the 404
    for an unknown posting, the 500 for any other exception. *)
Inductive search_response :=
| SearchOk (matches : list search_result)
| SearchNotFound404
| SearchError500.

Definition to_result (analyze : cv_data -> job_data -> details)
    (job : job_data) (m : string * Q * cv_data) : search_result :=
  let '(cv_id, score, cv) := m in
  {| sr_cv_id := cv_id;
     similarity_score := py_round score 2;
     sr_candidate_name := default "Bilinmiyor" (name (cv_personal_info cv));
     candidate_email := default "" (email (cv_personal_info cv));
     match_details := analyze cv job |}.

(** The candidates that survive the filters and the cut to [top_k]. *)
Definition filtered_results
    (find : job_data -> Z -> list (string * Q * cv_data))
    (job : job_data) (params : search_params)
    : list (string * Q * cv_data) :=
  slice_to (top_k params)
    (List.filter (keep params) (find job (top_k params * 2)%Z)).

(** [advanced_job_search]. The first lookup is made once, before the
    filtering loop; the second inside the loop over the retained
    candidates, so it is not reached when none is retained. *)
Definition advanced_job_search (job : option job_data) (params : search_params)
    : search_response :=
  match job with
  | None => SearchNotFound404
  | Some job =>
      match find_matching_cvs with
      | None => SearchError500
      | Some find =>
          match filtered_results find job params, analyze_match_details with
          | [], _ => SearchOk []
          | _ :: _, None => SearchError500
          | retained, Some analyze => SearchOk (map (to_result analyze job) retained)
          end
      end
  end.

End Search.

Arguments SearchOk {details} matches.
Arguments SearchNotFound404 {details}.
Arguments SearchError500 {details}.

(* --------------------------------------------------------------------- *)
(* Sample data                                                           *)
(* --------------------------------------------------------------------- *)

Definition python_sql : list string := ["Python"; "SQL"].
Definition python_sql_docker : list string := ["Python"; "SQL"; "Docker"].

Definition demo_candidate : demo_cv :=
  {| demo_cv_id := 1; demo_name := Some "Ada";
     demo_skills := python_sql_docker; demo_experience_years := 3 |}.

Definition cv_with (skills : list string) : cv_data :=
  {| cv_personal_info := {| name := Some "Ada"; email := None |};
     cv_education := []; cv_experience := [];
     cv_skills := skills; cv_raw_text := "" |}.

Definition sample_job : job_data :=
  {| job_id := "job-1"; title := "Data engineer"; job_company := "";
     job_description := ""; required_skills := python_sql |}.

Definition python_sql_params : search_params :=
  {| top_k := 20; min_score := 50; sp_required_skills := python_sql;
     experience_years := 0; education_level := "" |}.

(** The test that guards the notification e-mail in [add_cv]:
    [if best_match and best_score >= 30]. *)
Definition should_notify (jobs : list job_data) (cv_skills : list string) : bool :=
  match best_match jobs cv_skills with
  | (Some _, best_score) => Qle_bool 30 best_score
  | (None, _) => false
  end.

(** [add_demo_job] and [add_demo_cv]: the new id is the length of the
    list plus one and the record goes to the end. *)
Definition add_demo_job (skills : list string) (demo_jobs : list demo_job)
    : list demo_job :=
  demo_jobs ++ [{| demo_job_id := Z.of_nat (length demo_jobs) + 1;
                   demo_required_skills := skills |}].

Definition add_demo_cv (cv_name : string) (skills : list string) (years : Z)
    (demo_cvs : list demo_cv) : list demo_cv :=
  demo_cvs ++ [{| demo_cv_id := Z.of_nat (length demo_cvs) + 1;
                  demo_name := Some cv_name; demo_skills := skills;
                  demo_experience_years := years |}].

(** What the appends of [add_demo_job] keep true of the list: the
    posting at position [i] carries the id [i + 1]. *)
Definition sequential_ids (demo_jobs : list demo_job) : Prop :=
  forall i job, demo_jobs !! i = Some job -> demo_job_id job = (Z.of_nat i + 1)%Z.

(** Highest share first. *)
Definition higher (a b : demo_match) : Prop :=
  (match_percentage b <= match_percentage a)%Q.

(* --------------------------------------------------------------------- *)
(* match_router.batch_match_cvs_to_jobs                                  *)
(* --------------------------------------------------------------------- *)

(** One entry of a posting's [matches]. *)
Record batch_entry := {
  be_cv_id : string;
  be_similarity_score : Q;
  be_candidate_name : string
}.

(** What [all_results] holds for one posting id: the error dict, or the
    title with the filtered matches and their number. *)
Inductive batch_result :=
| JobNotFound
| JobMatches (job_title : string) (matches : list batch_entry)
             (total_matches : nat).

(** The answers of the handler: the [batch_results] dict, or the 500
    that any exception inside the loop turns into. *)
Inductive batch_response :=
| BatchOk (batch_results : gmap string batch_result)
| BatchError500.

Definition batch_entry_of (m : string * Q * cv_data) : batch_entry :=
  let '(cv_id, score, cv) := m in
  {| be_cv_id := cv_id;
     be_similarity_score := py_round score 2;
     be_candidate_name := default "Bilinmiyor" (name (cv_personal_info cv)) |}.

Section Batch.

(** What the attribute lookup [embedding_service.find_matching_cvs]
    gives: [None] is the AttributeError, and that is what the service of
    this repository gives. *)
Variable find_matching_cvs
  : option (job_data -> Z -> list (string * Q * cv_data)).

(** The body of the loop for one id, [jobs] being the collection keyed
    by [job_id]; [None] when the lookup raises. *)
Definition batch_for (jobs : gmap string job_data) (top_k : Z) (min_score : Q)
    (id : string) : option batch_result :=
  match jobs !! id with
  | None => Some JobNotFound
  | Some job =>
      match find_matching_cvs with
      | None => None
      | Some find =>
          let filtered :=
            map batch_entry_of
                (List.filter (fun m => negb (Qlt_bool m.1.2 min_score))
                             (find job top_k)) in
          Some (JobMatches (title job) filtered (length filtered))
      end
  end.

(** The loop over [job_ids], filling [all_results]. *)
Fixpoint batch_loop (jobs : gmap string job_data) (top_k : Z) (min_score : Q)
    (job_ids : list string) (all_results : gmap string batch_result)
    : option (gmap string batch_result) :=
  match job_ids with
  | [] => Some all_results
  | id :: rest =>
      match batch_for jobs top_k min_score id with
      | None => None
      | Some r => batch_loop jobs top_k min_score rest (<[id := r]> all_results)
      end
  end.

(** [batch_match_cvs_to_jobs] *)
Definition batch_match_cvs_to_jobs (jobs : gmap string job_data)
    (job_ids : list string) (top_k : Z) (min_score : Q) : batch_response :=
  match batch_loop jobs top_k min_score job_ids ∅ with
  | Some all_results => BatchOk all_results
  | None => BatchError500
  end.

End Batch.

(* --------------------------------------------------------------------- *)
(* Properties                                                            *)
(* --------------------------------------------------------------------- *)

Lemma matched_skills_size (job_skills cv_skills : list string) :
  NoDup job_skills ->
  size (matched_skills job_skills cv_skills) =
    length (filter (fun skill => skill ∈ cv_skills) job_skills).
Proof.
  intros Hnd. unfold matched_skills.
  assert ((list_to_set job_skills ∩ list_to_set cv_skills : gset string) =
          list_to_set (filter (fun skill => skill ∈ cv_skills) job_skills)) as ->.
  { apply set_eq. intros x.
    rewrite elem_of_intersection, !elem_of_list_to_set, list_elem_of_filter.
    tauto. }
  apply size_list_to_set. by apply NoDup_filter.
Qed.

Lemma lower_set_empty (skills : list string) :
  lower_set skills = ∅ <-> skills = [].
Proof.
  unfold lower_set. split; [|by intros ->].
  destruct skills as [|skill skills]; [done|]. simpl. intros H.
  assert (lower skill ∈ (∅ : gset string)) as Hin by (rewrite <- H; set_solver).
  by apply not_elem_of_empty in Hin.
Qed.

Lemma filter_fmap_length {A B} (f : A -> B) (P : B -> Prop)
    `{!forall b, Decision (P b)} (l : list A) :
  length (filter P (map f l)) = length (filter (fun a => P (f a)) l).
Proof.
  induction l as [|a l IH]; [done|]. simpl.
  rewrite !filter_cons. destruct (decide (P (f a))); simpl; by rewrite IH.
Qed.

(** The size of the lower-cased overlap is the number of required skills
    found, ignoring case, among the candidate's. *)
Lemma lower_overlap_size (job_skills cv_skills : list string) :
  NoDup (map lower job_skills) ->
  size (lower_set job_skills ∩ lower_set cv_skills) =
    required_matched job_skills cv_skills.
Proof.
  intros Hnd. unfold lower_set, required_matched.
  etrans; [|exact (filter_fmap_length lower
                     (fun skill => skill ∈ map lower cv_skills) job_skills)].
  by apply (matched_skills_size (map lower job_skills) (map lower cv_skills)).
Qed.

(** C3, as the code has it. With a non-empty list of required skills:
    [simple_match] computes the share of required skills found among the
    candidate's, names compared ignoring case (the required names being
    distinct when lower-cased), times 100; [add_cv] computes the share
    of required skills found among the candidate's, names compared as
    they are written (the required names being distinct), times 100.
    With nothing required there is no full score: [add_cv] computes
    none and [simple_match] gives 0. *)
Theorem skills_overlap_score (job_skills cv_skills : list string) :
  (job_skills <> [] -> NoDup (map lower job_skills) ->
     percentage (lower_set job_skills) (lower_set cv_skills) =
       (ratio (required_matched job_skills cv_skills)
              (length job_skills) * 100)%Q) /\
  (job_skills <> [] -> NoDup job_skills ->
     skill_score job_skills cv_skills =
       Some (ratio (length (filter (fun skill => skill ∈ cv_skills) job_skills))
                   (length job_skills) * 100)%Q) /\
  skill_score [] cv_skills = None /\
  percentage (lower_set []) (lower_set cv_skills) = 0%Q.
Proof.
  split; [|split; [|split]].
  - intros Hne Hnd. unfold percentage.
    destruct (decide (lower_set job_skills = ∅)) as [He|_].
    { by apply lower_set_empty in He. }
    rewrite lower_overlap_size by done.
    unfold lower_set. by rewrite size_list_to_set, length_map.
  - intros Hne Hnd. unfold skill_score.
    destruct job_skills as [|skill rest]; [done|].
    by rewrite matched_skills_size.
  - reflexivity.
  - reflexivity.
Qed.

Lemma skills_overlap_score_witness :
  (percentage (lower_set python_sql) (lower_set python_sql_docker) == 100)%Q /\
  skill_score python_sql python_sql_docker = Some (ratio 2 2 * 100)%Q.
Proof.
  destruct (skills_overlap_score python_sql python_sql_docker)
    as (Hdemo & Hweb & _).
  split.
  - rewrite Hdemo; [vm_compute; reflexivity|discriminate|].
    apply (bool_decide_unpack (NoDup (map lower python_sql))).
    vm_compute. reflexivity.
  - rewrite Hweb; [vm_compute; reflexivity|discriminate|].
    apply (bool_decide_unpack (NoDup python_sql)).
    vm_compute. reflexivity.
Defined.

(** The scenario of the specification on [simple_match]: everything
    required is matched; the three sets hold the lower-cased names. *)
Example demo_python_sql_docker :
  let m := match_cv (lower_set python_sql) demo_candidate in
  (match_percentage m == 100)%Q /\
  dm_matched_skills m = {[ "python"; "sql" ]} /\
  extra_skills m = {[ "docker" ]} /\
  missing_skills m = ∅.
Proof. vm_compute. repeat split; reflexivity. Qed.

(** C3 as stated fails. For an empty required list [add_cv] computes no
    score and [simple_match] gives 0, not the full score. And [add_cv]
    does not ignore case: the required skill Python is not found in a
    candidate who lists python, and the score is 0. *)
Lemma empty_required_not_full_score :
  skill_score [] python_sql_docker = None /\
  percentage (lower_set []) (lower_set python_sql_docker) = 0%Q /\
  ~ (percentage (lower_set []) (lower_set python_sql_docker) == 100)%Q /\
  skill_score ["Python"] ["python"] = Some (ratio 0 1 * 100)%Q.
Proof.
  split; [reflexivity|]. split; [reflexivity|].
  split; [vm_compute; discriminate|].
  vm_compute. reflexivity.
Qed.

Lemma ceiling_le_iff (x : Q) (n : Z) :
  (Qceiling x <= n)%Z <-> (x <= inject_Z n)%Q.
Proof.
  split.
  - intros H. eapply Qle_trans; [apply Qle_ceiling|].
    by rewrite <- Zle_Qle.
  - intros H. rewrite <- (Qceiling_Z n). by apply Qceiling_resp_le.
Qed.

Lemma skill_filter_iff (required : list string) (cv : cv_data) :
  required <> [] ->
  skill_filter required cv = true <->
  (Qceiling (inject_Z (Z.of_nat (length required)) * (7 # 10)) <=
     Z.of_nat (required_matched required (cv_skills cv)))%Z.
Proof.
  intros Hne. unfold skill_filter, Qlt_bool.
  destruct required as [|skill rest]; [done|].
  rewrite negb_involutive, Qle_bool_iff. symmetry. apply ceiling_le_iff.
Qed.

(** C4, as the code has it. In the filtering loop of the advanced
    search, with required skills given, the skill test lets a candidate
    through exactly when the number of required skills found among the
    candidate's, ignoring case, is at least
    [ceil(0.7 * len(required_skills))]; and the loop keeps a scored
    candidate exactly when the score reaches [min_score] and the
    candidate passes the skill test, the experience test and the
    education test. *)
Theorem advanced_search_skill_filter (params : search_params)
    (cv_id : string) (score : Q) (cv : cv_data) :
  (sp_required_skills params <> [] ->
     skill_filter (sp_required_skills params) cv = true <->
     (Qceiling (inject_Z (Z.of_nat (length (sp_required_skills params)))
                * (7 # 10)) <=
        Z.of_nat (required_matched (sp_required_skills params) (cv_skills cv)))%Z)
  /\
  (keep params (cv_id, score, cv) = true <->
     (min_score params <= score)%Q /\
     skill_filter (sp_required_skills params) cv = true /\
     experience_filter (experience_years params) cv = true /\
     education_filter (education_level params) cv = true).
Proof.
  split.
  - intros Hne. by apply skill_filter_iff.
  - unfold keep. rewrite !andb_true_iff.
    assert (Hscore : negb (Qlt_bool score (min_score params)) = true <->
                     (min_score params <= score)%Q).
    { unfold Qlt_bool. rewrite negb_involutive. apply Qle_bool_iff. }
    rewrite Hscore. tauto.
Qed.

Lemma advanced_search_skill_filter_witness :
  skill_filter python_sql (cv_with ["python"; "sql"]) = true /\
  (50 <= 60)%Q.
Proof.
  destruct (advanced_search_skill_filter python_sql_params "cv-b" 60
              (cv_with ["python"; "sql"])) as [Hiff Hkeep].
  split.
  - apply Hiff; [discriminate|]. vm_compute. discriminate.
  - apply Hkeep. vm_compute. reflexivity.
Defined.

(** C4 as stated fails. With the default [min_score] of 50 a candidate
    who scores 40 and matches both required skills (2 >= ceil(1.4)) is
    dropped by the loop: the skill count alone does not decide. And the
    handler of this repository answers 500 for a posting that exists,
    whatever the parameters, so that no candidate is retained and no
    match detail is available. *)
Lemma advanced_search_not_iff :
  required_matched python_sql ["python"; "sql"] = 2%nat /\
  Qceiling (inject_Z 2 * (7 # 10)) = 2%Z /\
  keep python_sql_params ("cv-b", 40%Q, cv_with ["python"; "sql"]) = false /\
  (forall params,
     advanced_job_search unit None None (Some sample_job) params =
       SearchError500).
Proof. repeat split; vm_compute; reflexivity. Qed.

(* --------------------------------------------------------------------- *)
(* Further properties of the skill overlap                               *)
(* --------------------------------------------------------------------- *)

Lemma ratio_bounds (a b : nat) :
  (a <= b)%nat -> (0 < b)%nat -> (0 <= ratio a b * 100 <= 100)%Q.
Proof.
  intros Hab Hb. unfold ratio.
  assert (HB : (0 < inject_Z (Z.of_nat b))%Q).
  { change 0%Q with (inject_Z 0). rewrite <- Zlt_Qlt. lia. }
  assert (H0 : (0 <= inject_Z (Z.of_nat a) / inject_Z (Z.of_nat b))%Q).
  { apply Qle_shift_div_l; [done|]. rewrite Qmult_0_l.
    change 0%Q with (inject_Z 0). rewrite <- Zle_Qle. lia. }
  assert (H1 : (inject_Z (Z.of_nat a) / inject_Z (Z.of_nat b) <= 1)%Q).
  { apply Qle_shift_div_r; [done|]. rewrite Qmult_1_l.
    rewrite <- Zle_Qle. lia. }
  set (x := (inject_Z (Z.of_nat a) / inject_Z (Z.of_nat b))%Q) in *.
  clearbody x. split; lra.
Qed.

Lemma ratio_mono (a a' b : nat) :
  (a <= a')%nat -> (ratio a b * 100 <= ratio a' b * 100)%Q.
Proof.
  intros Ha. unfold ratio, Qdiv.
  apply Qmult_le_compat_r; [|done].
  apply Qmult_le_compat_r; [rewrite <- Zle_Qle; lia|].
  apply Qinv_le_0_compat. change 0%Q with (inject_Z 0).
  rewrite <- Zle_Qle. lia.
Qed.

Lemma size_list_to_set_le (l : list string) :
  (size (list_to_set l : gset string) <= length l)%nat.
Proof.
  induction l as [|s l IH].
  - change (list_to_set [] : gset string) with (∅ : gset string).
    by rewrite size_empty.
  - change (list_to_set (s :: l) : gset string)
      with ({[ s ]} ∪ list_to_set l : gset string).
    rewrite size_union_alt, size_singleton. simpl.
    apply le_n_S. etrans; [|exact IH].
    apply subseteq_size. intros x Hx. apply elem_of_difference in Hx. tauto.
Qed.

Lemma matched_skills_le (job_skills cv_skills : list string) :
  (size (matched_skills job_skills cv_skills) <= length job_skills)%nat.
Proof.
  unfold matched_skills. etrans; [|apply size_list_to_set_le].
  apply subseteq_size. intros x Hx. apply elem_of_intersection in Hx. tauto.
Qed.

(** Both overlap scores are percentages: whenever [add_cv] computes a
    score it lies between 0 and 100, and so does the share that
    [simple_match] computes for any pair of skill sets. *)
Theorem overlap_scores_bounded (job_skills cv_skills : list string)
    (job_set cv_set : gset string) :
  (forall score, skill_score job_skills cv_skills = Some score ->
     (0 <= score <= 100)%Q) /\
  (0 <= percentage job_set cv_set <= 100)%Q.
Proof.
  split.
  - intros score. unfold skill_score.
    destruct job_skills as [|s l]; [discriminate|].
    intros [= <-].
    apply ratio_bounds; [apply (matched_skills_le (s :: l) cv_skills)|simpl; lia].
  - unfold percentage. destruct (decide (job_set = ∅)) as [|Hne]; [lra|].
    apply ratio_bounds.
    + apply subseteq_size. intros x Hx. apply elem_of_intersection in Hx. tauto.
    + destruct (size job_set) eqn:Hsize; [|lia].
      apply size_empty_inv in Hsize. exfalso. apply Hne.
      by apply leibniz_equiv.
Qed.

Lemma overlap_scores_bounded_witness :
  (0 <= ratio 2 2 * 100 <= 100)%Q.
Proof.
  destruct (overlap_scores_bounded python_sql python_sql_docker ∅ ∅) as [H _].
  apply H. vm_compute. reflexivity.
Defined.

(** A candidate who has every skill of another, and possibly more, never
    gets a lower share from [simple_match] for the same posting. *)
Theorem percentage_monotone (job_set cv_small cv_large : gset string) :
  cv_small ⊆ cv_large ->
  (percentage job_set cv_small <= percentage job_set cv_large)%Q.
Proof.
  intros Hsub. unfold percentage.
  destruct (decide (job_set = ∅)); [lra|].
  apply ratio_mono, subseteq_size. intros x Hx.
  apply elem_of_intersection in Hx. apply elem_of_intersection.
  split; [tauto|]. apply Hsub. tauto.
Qed.

Lemma percentage_monotone_witness :
  (percentage (lower_set python_sql) (lower_set ["python"]) <=
   percentage (lower_set python_sql) (lower_set python_sql_docker))%Q.
Proof.
  apply percentage_monotone.
  apply (bool_decide_unpack (lower_set ["python"] ⊆ lower_set python_sql_docker)).
  vm_compute. reflexivity.
Defined.

(** The three skill sets that [simple_match] reports split the two
    inputs: matched and missing skills make up the posting's skills
    without overlap, matched and extra skills make up the candidate's,
    and no extra skill is one the posting asks for. *)
Theorem match_sets_partition (job_set : gset string) (cv : demo_cv) :
  let m := match_cv job_set cv in
  dm_matched_skills m ∪ missing_skills m = job_set /\
  dm_matched_skills m ∩ missing_skills m = ∅ /\
  dm_matched_skills m ∪ extra_skills m = lower_set (demo_skills cv) /\
  extra_skills m ∩ job_set = ∅.
Proof.
  simpl. repeat split; apply set_eq; intros x.
  - rewrite elem_of_union, elem_of_intersection, elem_of_difference.
    destruct (decide (x ∈ lower_set (demo_skills cv))); tauto.
  - rewrite elem_of_intersection, elem_of_intersection, elem_of_difference.
    split; [tauto|]. intros H. by apply not_elem_of_empty in H.
  - rewrite elem_of_union, elem_of_intersection, elem_of_difference.
    destruct (decide (x ∈ job_set)); tauto.
  - rewrite elem_of_intersection, elem_of_difference.
    split; [tauto|]. intros H. by apply not_elem_of_empty in H.
Qed.

Lemma Qlt_bool_iff (a b : Q) : Qlt_bool a b = true <-> (a < b)%Q.
Proof.
  unfold Qlt_bool. rewrite negb_true_iff, <- not_true_iff_false, Qle_bool_iff.
  split; [apply Qnot_le_lt|apply Qlt_not_le].
Qed.

Lemma insert_match_elem m l x : x ∈ insert_match m l <-> x = m \/ x ∈ l.
Proof.
  induction l as [|m' l IH]; simpl.
  - rewrite list_elem_of_singleton. split; [by left|].
    intros [H|H]; [done|]. by apply elem_of_nil in H.
  - destruct (Qle_bool _ _).
    + by rewrite elem_of_cons.
    + rewrite !elem_of_cons, IH. tauto.
Qed.

Lemma sort_matches_elem l x : x ∈ sort_matches l <-> x ∈ l.
Proof.
  induction l as [|m l IH]; simpl; [done|].
  rewrite insert_match_elem, elem_of_cons, IH. tauto.
Qed.

Lemma insert_match_length m l : length (insert_match m l) = S (length l).
Proof.
  induction l as [|m' l IH]; simpl; [done|].
  destruct (Qle_bool _ _); simpl; [done|by rewrite IH].
Qed.

Lemma sort_matches_length l : length (sort_matches l) = length l.
Proof.
  induction l as [|m l IH]; simpl; [done|].
  by rewrite insert_match_length, IH.
Qed.

Lemma insert_match_sorted m l :
  StronglySorted higher l -> StronglySorted higher (insert_match m l).
Proof.
  induction 1 as [|m' l Hs IH Hall]; simpl.
  - repeat constructor.
  - destruct (Qle_bool (match_percentage m') (match_percentage m)) eqn:Hle.
    + apply Qle_bool_iff in Hle. constructor; [by constructor|].
      constructor; [done|]. eapply Forall_impl; [exact Hall|].
      intros x Hx. unfold higher in *. by eapply Qle_trans.
    + constructor; [done|]. apply Forall_forall. intros x Hx.
      apply insert_match_elem in Hx as [->|Hx].
      * unfold higher. apply Qlt_le_weak, Qnot_le_lt. intros Hc.
        apply Qle_bool_iff in Hc. congruence.
      * rewrite Forall_forall in Hall. by apply Hall.
Qed.

Lemma sort_matches_sorted l : StronglySorted higher (sort_matches l).
Proof.
  induction l as [|m l IH]; simpl; [constructor|].
  by apply insert_match_sorted.
Qed.

Lemma percentage_positive (job_set cv_set : gset string) :
  Qlt_bool 0 (percentage job_set cv_set) = true -> job_set ∩ cv_set <> ∅.
Proof.
  intros Hpos%Qlt_bool_iff Hempty. unfold percentage in Hpos.
  destruct (decide (job_set = ∅)); [by apply Qlt_irrefl in Hpos|].
  rewrite Hempty, size_empty in Hpos. unfold ratio, Qdiv in Hpos.
  simpl in Hpos. rewrite !Qmult_0_l in Hpos. by apply Qlt_irrefl in Hpos.
Qed.

(** What [simple_match] lists for a posting: only candidates that share
    at least one skill with it, highest share first, each counted once
    ([total_candidates] never exceeds [total_cvs_checked]); a posting
    that requires no skill at all gets no candidate. *)
Theorem simple_match_lists_overlap (demo_jobs : list demo_job)
    (demo_cvs : list demo_cv) (job_id : Z) (r : demo_response) :
  simple_match demo_jobs demo_cvs job_id = Some r ->
  demo_job_id (dr_job r) = job_id /\
  (forall m, m ∈ dr_matches r ->
     dm_cv m ∈ demo_cvs /\ dm_matched_skills m <> ∅) /\
  StronglySorted higher (dr_matches r) /\
  total_candidates r = length (dr_matches r) /\
  (total_candidates r <= total_cvs_checked r)%nat /\
  (demo_required_skills (dr_job r) = [] -> dr_matches r = []).
Proof.
  unfold simple_match.
  destruct (List.find _ demo_jobs) as [job|] eqn:Hfind; [|discriminate].
  intros [= <-]. simpl.
  apply find_some in Hfind as [Hin Hid]. apply Z.eqb_eq in Hid.
  split; [done|]. split; [|split; [|split; [|split]]].
  - intros m Hm. apply (proj1 (sort_matches_elem _ _)) in Hm.
    apply list_elem_of_In, filter_In in Hm as [Hm Hpos].
    apply list_elem_of_In, list_elem_of_fmap in Hm as (cv & -> & Hcv).
    simpl in *. split; [done|]. by apply percentage_positive.
  - apply sort_matches_sorted.
  - done.
  - rewrite sort_matches_length.
    etrans; [apply List.filter_length_le|]. by rewrite length_map.
  - intros Hreq. rewrite Hreq.
    assert (List.filter
              (fun m => Qlt_bool 0 (percentage (lower_set [])
                                      (lower_set (demo_skills (dm_cv m)))))
              (map (match_cv (lower_set [])) demo_cvs) = []) as ->; [|done].
    induction demo_cvs as [|cv cvs IH]; [done|]. simpl. exact IH.
Qed.

Lemma simple_match_lists_overlap_witness :
  exists r,
    simple_match [{| demo_job_id := 1; demo_required_skills := python_sql |}]
      [demo_candidate] 1 = Some r /\
    (total_candidates r <= total_cvs_checked r)%nat.
Proof.
  destruct (simple_match
              [{| demo_job_id := 1; demo_required_skills := python_sql |}]
              [demo_candidate] 1) as [r|] eqn:H.
  - exists r. split; [reflexivity|].
    by apply (simple_match_lists_overlap _ _ _ _ H).
  - vm_compute in H. discriminate H.
Defined.

Lemma best_fold (jobs : list job_data) (cv_skills : list string)
    (acc : option job_data * Q) :
  let step := fun (best : option job_data * Q) (job : job_data) =>
    match skill_score (required_skills job) cv_skills with
    | Some score => if Qlt_bool best.2 score then (Some job, score) else best
    | None => best
    end in
  let r := fold_left step jobs acc in
  (acc.2 <= r.2)%Q /\
  (forall job s, job ∈ jobs ->
     skill_score (required_skills job) cv_skills = Some s -> (s <= r.2)%Q) /\
  (r = acc \/
   exists job, job ∈ jobs /\ r.1 = Some job /\
     skill_score (required_skills job) cv_skills = Some r.2 /\
     (acc.2 < r.2)%Q).
Proof.
  intros step. revert acc.
  induction jobs as [|job jobs IH]; intros acc; simpl.
  - split; [apply Qle_refl|]. split; [|by left].
    intros job s Hin. by apply elem_of_nil in Hin.
  - destruct (IH (step acc job)) as (Hle & Hall & Hwho).
    assert (Hstep : (acc.2 <= (step acc job).2)%Q /\
              (forall s, skill_score (required_skills job) cv_skills = Some s ->
                 (s <= (step acc job).2)%Q) /\
              (step acc job = acc \/
               (step acc job).1 = Some job /\
               skill_score (required_skills job) cv_skills =
                 Some (step acc job).2 /\
               (acc.2 < (step acc job).2)%Q)).
    { unfold step.
      destruct (skill_score (required_skills job) cv_skills) as [score|].
      - destruct (Qlt_bool acc.2 score) eqn:Hlt.
        + apply Qlt_bool_iff in Hlt. simpl.
          split; [by apply Qlt_le_weak|]. split; [|by right].
          intros s [= ->]. apply Qle_refl.
        + split; [apply Qle_refl|]. split; [|by left].
          intros s [= ->]. apply Qnot_lt_le. intros Hc.
          apply Qlt_bool_iff in Hc. congruence.
      - split; [apply Qle_refl|]. split; [discriminate|by left]. }
    destruct Hstep as (Hle1 & Hs1 & Hwho1).
    split; [by eapply Qle_trans|]. split.
    + intros job' s Hin Hs. apply elem_of_cons in Hin as [->|Hin].
      * eapply Qle_trans; [by apply Hs1|done].
      * by eapply Hall.
    + destruct Hwho as [Hr|(job' & Hin & H1 & H2 & H3)].
      * destruct Hwho1 as [Ha|(H1 & H2 & H3)].
        -- left. by rewrite Hr.
        -- right. exists job. rewrite Hr.
           split; [apply elem_of_cons; by left|done].
      * right. exists job'. split; [apply elem_of_cons; by right|].
        split; [done|]. split; [done|]. by eapply Qle_lt_trans.
Qed.

(** The posting that [add_cv] picks has the highest score among all
    postings and scores above 0; when no posting scores above 0 none is
    picked. The notification is sent only when some posting has at least
    30 per cent of its required skills. *)
Theorem best_match_is_best (jobs : list job_data) (cv_skills : list string) :
  let r := best_match jobs cv_skills in
  (forall job s, job ∈ jobs ->
     skill_score (required_skills job) cv_skills = Some s -> (s <= r.2)%Q) /\
  match r.1 with
  | Some job =>
      job ∈ jobs /\
      skill_score (required_skills job) cv_skills = Some r.2 /\ (0 < r.2)%Q
  | None => r = (None, 0%Q)
  end /\
  (should_notify jobs cv_skills = true ->
     exists job, job ∈ jobs /\
       skill_score (required_skills job) cv_skills = Some r.2 /\ (30 <= r.2)%Q).
Proof.
  intros r.
  destruct (best_fold jobs cv_skills (None, 0%Q)) as (_ & Hall & Hwho).
  fold (best_match jobs cv_skills) in Hall, Hwho. fold r in Hall, Hwho.
  assert (Hpick : match r.1 with
                  | Some job =>
                      job ∈ jobs /\
                      skill_score (required_skills job) cv_skills = Some r.2 /\
                      (0 < r.2)%Q
                  | None => r = (None, 0%Q)
                  end).
  { destruct Hwho as [->|(job & Hin & H1 & H2 & H3)]; [done|].
    rewrite H1. done. }
  split; [exact Hall|]. split; [exact Hpick|].
  unfold should_notify. fold r. destruct r as [[job|] score]; simpl in *.
  - intros Hn%Qle_bool_iff. exists job. tauto.
  - discriminate.
Qed.

Lemma best_match_is_best_witness :
  should_notify [sample_job] python_sql_docker = true /\
  exists job, job ∈ [sample_job] /\
    skill_score (required_skills job) python_sql_docker =
      Some (best_match [sample_job] python_sql_docker).2.
Proof.
  split; [vm_compute; reflexivity|].
  destruct (best_match_is_best [sample_job] python_sql_docker) as (_ & _ & H).
  destruct H as (job & Hin & Hs & _); [vm_compute; reflexivity|].
  exists job. by split.
Defined.

Lemma find_sequential (demo_jobs : list demo_job) (k i : nat) :
  (forall n job, demo_jobs !! n = Some job ->
     demo_job_id job = (Z.of_nat (k + n) + 1)%Z) ->
  List.find (fun j => (demo_job_id j =? Z.of_nat (k + i) + 1)%Z) demo_jobs =
    demo_jobs !! i.
Proof.
  revert k i. induction demo_jobs as [|job jobs IH]; intros k i Hseq.
  - done.
  - simpl. rewrite (Hseq 0%nat job eq_refl).
    destruct i as [|i].
    + rewrite Nat.add_0_r, Z.eqb_refl. done.
    + assert ((Z.of_nat (k + 0) + 1 =? Z.of_nat (k + S i) + 1)%Z = false) as ->
        by (apply Z.eqb_neq; lia).
      simpl. replace (k + S i)%nat with (S k + i)%nat by lia.
      apply IH. intros n job' Hn.
      rewrite (Hseq (S n) job' Hn). f_equal. lia.
Qed.

(** Postings only ever join the demo list through [add_demo_job], which
    keeps the ids equal to the positions plus one. So a posting just
    added is the one [simple_match] works on under its new id, every
    earlier posting is still found under its own id, and an id beyond
    the list gives 404. *)
Theorem added_job_is_matched (skills : list string)
    (demo_jobs : list demo_job) (demo_cvs : list demo_cv) :
  sequential_ids demo_jobs ->
  let jobs' := add_demo_job skills demo_jobs in
  sequential_ids jobs' /\
  (exists r, simple_match jobs' demo_cvs (Z.of_nat (length demo_jobs) + 1) = Some r /\
     demo_required_skills (dr_job r) = skills) /\
  (forall i job, demo_jobs !! i = Some job ->
     exists r, simple_match jobs' demo_cvs (Z.of_nat i + 1) = Some r /\
       dr_job r = job) /\
  (forall i, (length jobs' <= i)%nat ->
     simple_match jobs' demo_cvs (Z.of_nat i + 1) = None).
Proof.
  intros Hseq jobs'.
  assert (Hseq' : sequential_ids jobs').
  { intros i job Hi. subst jobs'. unfold add_demo_job in Hi.
    apply lookup_app_Some in Hi as [Hi|[Hge Hi]]; [by apply Hseq|].
    apply list_lookup_singleton_Some in Hi as [Hi <-]. simpl. lia. }
  assert (Hfind : forall i,
            List.find (fun j => (demo_job_id j =? Z.of_nat i + 1)%Z) jobs' =
            jobs' !! i).
  { intros i. apply (find_sequential jobs' 0 i). intros n job Hn.
    by apply Hseq'. }
  split; [exact Hseq'|]. split; [|split].
  - unfold simple_match. rewrite Hfind. subst jobs'. unfold add_demo_job.
    rewrite lookup_app_r, Nat.sub_diag by lia. simpl. by eexists.
  - intros i job Hi. unfold simple_match. rewrite Hfind. subst jobs'.
    unfold add_demo_job. rewrite lookup_app_l by (by eapply lookup_lt_Some).
    rewrite Hi. by eexists.
  - intros i Hi. unfold simple_match. rewrite Hfind.
    by rewrite (proj2 (lookup_ge_None _ _) Hi).
Qed.

Lemma added_job_is_matched_witness :
  exists r, simple_match (add_demo_job python_sql []) [demo_candidate] 1 = Some r /\
    demo_required_skills (dr_job r) = python_sql.
Proof.
  destruct (added_job_is_matched python_sql [] [demo_candidate]) as (_ & H & _).
  - intros i job Hi. discriminate Hi.
  - exact H.
Defined.

Lemma prefix_spec (needle hay : string) :
  String.prefix needle hay = true <-> exists post, hay = needle +:+ post.
Proof.
  revert hay. induction needle as [|a needle IH]; intros [|b hay]; simpl.
  - split; [intros _; by exists ""|done].
  - split; [intros _; by exists (String b hay)|done].
  - split; [discriminate|]. intros [post H]. discriminate H.
  - destruct (ascii_dec a b) as [->|Hne].
    + rewrite IH. split; intros [post H]; exists post.
      * by rewrite H.
      * by injection H.
    + split; [discriminate|]. intros [post H]. injection H as H1 _. done.
Qed.

(** [contains] is Python's substring test. *)
Lemma contains_spec (needle hay : string) :
  contains needle hay = true <->
  exists pre post, hay = pre +:+ needle +:+ post.
Proof.
  split.
  - induction hay as [|c hay IH].
    + cbn [contains]. rewrite orb_false_r. intros [post H]%prefix_spec.
      by exists "", post.
    + cbn [contains]. intros [H|H]%orb_true_iff.
      * apply prefix_spec in H as [post H]. by exists "", post.
      * destruct (IH H) as (pre & post & ->). by exists (String c pre), post.
  - intros (pre & post & ->). induction pre as [|c pre IH].
    + destruct (needle +:+ post) eqn:Heq; cbn [contains].
      all: apply orb_true_iff; left; apply prefix_spec; exists post;
        by rewrite <- Heq.
    + change (String c pre +:+ needle +:+ post)
        with (String c (pre +:+ needle +:+ post)).
      cbn [contains]. apply orb_true_iff. by right.
Qed.

(** A candidate passes the loop of the advanced search exactly when all
    four tests hold: the score reaches [min_score]; the required skills,
    if any, are matched to 70 per cent; the number of experience entries
    (not their length in years) reaches [experience_years] when that is
    positive; and, when an education level is asked for, it occurs in
    some degree, ignoring case. *)
Theorem keep_iff (params : search_params) (cv_id : string) (score : Q)
    (cv : cv_data) :
  keep params (cv_id, score, cv) = true <->
  (min_score params <= score)%Q /\
  (sp_required_skills params = [] \/
   (Qceiling (inject_Z (Z.of_nat (length (sp_required_skills params)))
              * (7 # 10)) <=
      Z.of_nat (required_matched (sp_required_skills params) (cv_skills cv)))%Z) /\
  ((experience_years params <= 0)%Z \/
   (experience_years params <= Z.of_nat (length (cv_experience cv)))%Z) /\
  (education_level params = "" \/
   exists edu pre post, edu ∈ cv_education cv /\
     lower (degree edu) = pre +:+ lower (education_level params) +:+ post).
Proof.
  unfold keep. rewrite !andb_true_iff.
  assert (Hscore : negb (Qlt_bool score (min_score params)) = true <->
                   (min_score params <= score)%Q).
  { unfold Qlt_bool. rewrite negb_involutive. apply Qle_bool_iff. }
  assert (Hskill : skill_filter (sp_required_skills params) cv = true <->
            sp_required_skills params = [] \/
            (Qceiling (inject_Z (Z.of_nat (length (sp_required_skills params)))
                       * (7 # 10)) <=
             Z.of_nat (required_matched (sp_required_skills params)
                         (cv_skills cv)))%Z).
  { destruct (sp_required_skills params) as [|s l] eqn:Hreq.
    - simpl. split; [by left|done].
    - rewrite skill_filter_iff by done. split; [by right|].
      intros [H|H]; [discriminate|done]. }
  assert (Hexp : experience_filter (experience_years params) cv = true <->
            (experience_years params <= 0)%Z \/
            (experience_years params <= Z.of_nat (length (cv_experience cv)))%Z).
  { unfold experience_filter.
    destruct (Z.ltb_spec 0 (experience_years params)).
    - rewrite negb_true_iff, Z.ltb_ge. lia.
    - split; [left; lia|done]. }
  assert (Hedu : education_filter (education_level params) cv = true <->
            education_level params = "" \/
            exists edu pre post, edu ∈ cv_education cv /\
              lower (degree edu) = pre +:+ lower (education_level params) +:+ post).
  { unfold education_filter.
    destruct (String.eqb_spec (education_level params) "") as [->|Hne].
    - split; [by left|done].
    - rewrite existsb_exists. split.
      + intros (edu & Hin & Hc). right.
        apply contains_spec in Hc as (pre & post & Hc).
        exists edu, pre, post. split; [by apply list_elem_of_In|done].
      + intros [H|(edu & pre & post & Hin & Hc)]; [done|].
        exists edu. split; [by apply list_elem_of_In|].
        apply contains_spec. eauto. }
  rewrite Hscore, Hskill, Hexp, Hedu. tauto.
Qed.

Lemma keep_iff_witness :
  keep default_search_params ("cv-a", 90%Q, cv_with ["python"]) = true.
Proof.
  apply (keep_iff default_search_params "cv-a" 90%Q (cv_with ["python"])).
  split; [vm_compute; discriminate|].
  split; [by left|]. split; [left; reflexivity|by left].
Defined.

(** The advanced search of this repository never returns candidates:
    it answers 404 for an unknown posting and 500 for every posting that
    exists, whatever the search parameters, because the handler looks up
    [find_matching_cvs] on the embedding service, which has no such
    method. *)
Theorem advanced_search_unavailable (details : Type)
    (analyze_match_details : option (cv_data -> job_data -> details))
    (job : job_data) (params : search_params) :
  advanced_job_search details None analyze_match_details None params =
    SearchNotFound404 /\
  advanced_job_search details None analyze_match_details (Some job) params =
    SearchError500.
Proof. split; reflexivity. Qed.

Lemma batch_loop_known (jobs : gmap string job_data) (top_k : Z)
    (min_score : Q) (job_ids : list string) (acc : gmap string batch_result) :
  (exists id, id ∈ job_ids /\ is_Some (jobs !! id)) ->
  batch_loop None jobs top_k min_score job_ids acc = None.
Proof.
  revert acc. induction job_ids as [|id' ids IH]; intros acc (id & Hin & Hjob).
  - by apply elem_of_nil in Hin.
  - simpl. unfold batch_for at 1.
    destruct (jobs !! id') as [job|] eqn:Hid'; [reflexivity|].
    apply IH. exists id. split; [|done].
    apply elem_of_cons in Hin as [->|Hin]; [|done].
    rewrite Hid' in Hjob. by destruct Hjob.
Qed.

Lemma batch_loop_unknown (jobs : gmap string job_data) (top_k : Z)
    (min_score : Q) (job_ids : list string) (acc : gmap string batch_result) :
  (forall id, id ∈ job_ids -> jobs !! id = None) ->
  exists all_results,
    batch_loop None jobs top_k min_score job_ids acc = Some all_results /\
    forall id, all_results !! id =
               if decide (id ∈ job_ids) then Some JobNotFound else acc !! id.
Proof.
  revert acc. induction job_ids as [|id' ids IH]; intros acc Hall.
  - exists acc. split; [done|]. intros id.
    destruct (decide (id ∈ [])) as [H|_]; [by apply elem_of_nil in H|done].
  - simpl. unfold batch_for at 1.
    rewrite (Hall id') by (apply elem_of_cons; by left).
    destruct (IH (<[id' := JobNotFound]> acc)) as (all_results & Hloop & Hlook).
    { intros id Hin. apply Hall. apply elem_of_cons. by right. }
    exists all_results. split; [done|]. intros id. rewrite Hlook.
    destruct (decide (id ∈ ids)) as [Hin|Hnin].
    + rewrite decide_True; [done|]. apply elem_of_cons. by right.
    + destruct (decide (id = id')) as [->|Hne].
      * rewrite decide_True by (apply elem_of_cons; by left).
        by rewrite lookup_insert_eq.
      * rewrite decide_False.
        -- by rewrite lookup_insert_ne.
        -- intros [H|H]%elem_of_cons; done.
Qed.

(** The batch matching of this repository answers 500 as soon as one
    requested id belongs to a posting that exists: the handler then
    looks up [find_matching_cvs] on the embedding service, which has no
    such method, and the whole batch fails. When none of the requested
    ids is known it answers with exactly one error entry for every
    requested id, however often the id is repeated, and none for other
    ids. *)
Theorem batch_match_entries (jobs : gmap string job_data)
    (job_ids : list string) (top_k : Z) (min_score : Q) :
  ((exists id, id ∈ job_ids /\ is_Some (jobs !! id)) ->
     batch_match_cvs_to_jobs None jobs job_ids top_k min_score =
       BatchError500) /\
  ((forall id, id ∈ job_ids -> jobs !! id = None) ->
     exists all_results,
       batch_match_cvs_to_jobs None jobs job_ids top_k min_score =
         BatchOk all_results /\
       forall id, all_results !! id =
                  if decide (id ∈ job_ids) then Some JobNotFound else None).
Proof.
  unfold batch_match_cvs_to_jobs. split.
  - intros Hknown. by rewrite batch_loop_known.
  - intros Hall.
    destruct (batch_loop_unknown jobs top_k min_score job_ids ∅ Hall)
      as (all_results & -> & Hlook).
    exists all_results. split; [done|]. intros id. rewrite Hlook.
    by destruct (decide (id ∈ job_ids)).
Qed.

Lemma batch_match_entries_witness :
  batch_match_cvs_to_jobs None {[ "job-1" := sample_job ]}
    ["job-9"; "job-1"] 5 50 = BatchError500 /\
  exists all_results,
    batch_match_cvs_to_jobs None {[ "job-1" := sample_job ]}
      ["job-9"; "job-8"; "job-9"] 5 50 = BatchOk all_results /\
    all_results !! "job-9" = Some JobNotFound.
Proof.
  split.
  - apply (batch_match_entries {[ "job-1" := sample_job ]}
             ["job-9"; "job-1"] 5 50).
    exists "job-1". split; [|by eexists].
    apply (bool_decide_unpack ("job-1" ∈ ["job-9"; "job-1"])).
    vm_compute. reflexivity.
  - destruct (batch_match_entries {[ "job-1" := sample_job ]}
                ["job-9"; "job-8"; "job-9"] 5 50) as [_ H].
    destruct H as (all_results & Hres & Hlook).
    + intros id Hin. apply lookup_singleton_ne.
      repeat (apply elem_of_cons in Hin as [->|Hin]; [discriminate|]).
      by apply elem_of_nil in Hin.
    + exists all_results. split; [exact Hres|]. rewrite Hlook.
      apply decide_True.
      apply (bool_decide_unpack ("job-9" ∈ ["job-9"; "job-8"; "job-9"])).
      vm_compute. reflexivity.
Defined.

End Matching.

(* ===================================================================== *)
(* Pairwise similarity                                                   *)
(* ===================================================================== *)

Module Cosine.
Import Records Embedding.

(** A Python float that may be NaN. *)
Inductive float :=
| Finite (r : R)
| NaN.

(** [np.dot] of two 1-D arrays of equal length. *)
Definition dot (x y : list R) : R :=
  fold_right Rplus 0%R (zip_with Rmult x y).

(** [np.linalg.norm] *)
Definition norm (x : list R) : R := sqrt (dot x x).

(** Nearest integer, halves to the even neighbour. *)
Definition round_half_even (y : R) : Z :=
  let f := Int_part y in
  let r := (y - IZR f)%R in
  if Rlt_dec r (1 / 2) then f
  else if Rlt_dec (1 / 2) r then (f + 1)%Z
  else if Z.even f then f else (f + 1)%Z.

(** [round(x, 2)] *)
Definition round2 (x : R) : R :=
  (IZR (round_half_even (x * 100)) / 100)%R.

(** Lines 38-40 of [calculate_similarity], the local [similarity]: both
    embeddings are divided by their norms and the dot product is scaled
    by 100. [None] is the ValueError of [np.dot] on arrays of different
    lengths; a zero embedding divides 0 by 0, which gives NaN. *)
Definition similarity (cv_embedding job_embedding : vector) : option float :=
  let cv := map Q2R cv_embedding in
  let job := map Q2R job_embedding in
  if negb (length cv =? length job)%nat then None
  else
    match cv with
    | [] => Some (Finite (0 * 100))
    | _ =>
        if Req_EM_T (norm cv) 0 then Some NaN
        else if Req_EM_T (norm job) 0 then Some NaN
        else
          let cv_norm := map (fun a => a / norm cv)%R cv in
          let job_norm := map (fun a => a / norm job)%R job in
          Some (Finite (dot cv_norm job_norm * 100))
    end.

(** Lines 37-40 and 48 of [calculate_similarity]: both embeddings are
    divided by their norms, the dot product is scaled by 100 and rounded
    to two decimals. [None] is the ValueError of [np.dot] on arrays of
    different lengths. A zero embedding divides 0 by 0, which gives NaN
    (a warning, no exception). *)
Definition similarity_score (cv_embedding job_embedding : vector) : option float :=
  let cv := map Q2R cv_embedding in
  let job := map Q2R job_embedding in
  if negb (length cv =? length job)%nat then None
  else
    match cv with
    | [] => Some (Finite (round2 (0 * 100)))
    | _ =>
        if Req_EM_T (norm cv) 0 then Some NaN
        else if Req_EM_T (norm job) 0 then Some NaN
        else
          let cv_norm := map (fun a => a / norm cv)%R cv in
          let job_norm := map (fun a => a / norm job)%R job in
          Some (Finite (round2 (dot cv_norm job_norm * 100)))
    end.

Inductive response (details : Type) :=
| Ok200 (cv_id job_id : string) (score : float) (match_details : details)
| NotFound404 (detail : string)
| ServerError500.
Arguments Ok200 {details} cv_id job_id score match_details.
Arguments NotFound404 {details} detail.
Arguments ServerError500 {details}.

Section Handler.

Variable encode : string -> vector.
Variable details : Type.

(** What the attribute lookup [embedding_service.analyze_match_details]
    gives: [None] is the AttributeError. The class [EmbeddingService] of
    embedding_service.py defines no method of that name, so for the
    service of this repository the lookup is [None]. *)
Variable analyze_match_details : option (cv_data -> job_data -> details).

(** [calculate_similarity], given what the two [find_one] calls return.
    Any exception inside the handler becomes the 500 response; how a NaN
    score is serialised afterwards is outside this model. *)
Definition calculate_similarity (cv_id job_id : string)
    (cv : option cv_data) (job : option job_data) : response details :=
  match cv, job with
  | None, _ => NotFound404 "CV bulunamadı"
  | Some _, None => NotFound404 "İş ilanı bulunamadı"
  | Some parsed_data, Some job =>
      match (create_cv_embedding encode parsed_data).1,
            (create_job_embedding encode job).1 with
      | Ok cv_embedding, Ok job_embedding =>
          match similarity_score cv_embedding job_embedding with
          | Some score =>
              match analyze_match_details with
              | Some analyze =>
                  Ok200 cv_id job_id score (analyze parsed_data job)
              | None => ServerError500
              end
          | None => ServerError500
          end
      | _, _ => ServerError500
      end
  end.

End Handler.

(* --------------------------------------------------------------------- *)
(* Properties                                                            *)
(* --------------------------------------------------------------------- *)

Open Scope R_scope.

Lemma dot_self_nonneg (x : list R) : 0 <= dot x x.
Proof.
  induction x as [|a x IH]; unfold dot in *; simpl; [lra|nra].
Qed.

Lemma cauchy_schwarz (x y : list R) :
  dot x y * dot x y <= dot x x * dot y y.
Proof.
  revert y. induction x as [|a x IH]; intros [|b y].
  - unfold dot; simpl; lra.
  - unfold dot; simpl; lra.
  - pose proof (dot_self_nonneg (a :: x)). unfold dot in *; simpl in *. nra.
  - specialize (IH y).
    pose proof (dot_self_nonneg x) as HA. pose proof (dot_self_nonneg y) as HB.
    unfold dot in *. simpl.
    set (p := fold_right Rplus 0 (zip_with Rmult x y)) in *.
    set (A := fold_right Rplus 0 (zip_with Rmult x x)) in *.
    set (B := fold_right Rplus 0 (zip_with Rmult y y)) in *.
    assert (Hcross : 2 * (a * b * p) <= a * a * B + b * b * A).
    { assert (Hsq : (2 * (a * b * p)) * (2 * (a * b * p)) <=
                    (a * a * B + b * b * A) * (a * a * B + b * b * A)).
      { assert (a * a * (b * b) * (p * p) <= a * a * (b * b) * (A * B)).
        { apply Rmult_le_compat_l; [nra|lra]. }
        pose proof (Rle_0_sqr (a * a * B - b * b * A)) as Hd.
        unfold Rsqr in Hd. lra. }
      assert (0 <= a * a * B + b * b * A) by nra.
      nra. }
    nra.
Qed.

Lemma dot_scaled (x y : list R) (c e : R) :
  c <> 0 -> e <> 0 ->
  dot (map (fun a => a / c) x) (map (fun a => a / e) y) = dot x y / (c * e).
Proof.
  intros Hc He. revert y. induction x as [|a x IH]; intros [|b y].
  - unfold dot; simpl. field. done.
  - unfold dot; simpl. field. done.
  - unfold dot; simpl. field. done.
  - specialize (IH y). unfold dot in *. simpl. rewrite IH. field. done.
Qed.

Lemma dot_abs_le_norms (x y : list R) : Rabs (dot x y) <= norm x * norm y.
Proof.
  unfold norm. rewrite <- sqrt_mult_alt by apply dot_self_nonneg.
  rewrite <- sqrt_Rsqr_abs. apply sqrt_le_1_alt. unfold Rsqr.
  apply cauchy_schwarz.
Qed.

Lemma norm_nonneg (x : list R) : 0 <= norm x.
Proof. apply sqrt_pos. Qed.

(** The cosine of two vectors with non-zero norms lies in [-1, 1]. *)
Lemma cosine_bounds (x y : list R) :
  norm x <> 0 -> norm y <> 0 ->
  -1 <= dot (map (fun a => a / norm x) x) (map (fun a => a / norm y) y) <= 1.
Proof.
  intros Hx Hy. rewrite dot_scaled by done.
  pose proof (norm_nonneg x). pose proof (norm_nonneg y).
  assert (Hpos : 0 < norm x * norm y) by nra.
  pose proof (dot_abs_le_norms x y) as Habs.
  pose proof (Rle_abs (dot x y)) as Hup.
  pose proof (Rle_abs (- dot x y)) as Hdown. rewrite Rabs_Ropp in Hdown.
  split.
  - apply Rmult_le_reg_r with (norm x * norm y); [done|].
    unfold Rdiv. rewrite Rmult_assoc, Rinv_l by lra. lra.
  - apply Rmult_le_reg_r with (norm x * norm y); [done|].
    unfold Rdiv. rewrite Rmult_assoc, Rinv_l by lra. lra.
Qed.

Lemma round_half_even_bounds (y : R) (lo hi : Z) :
  IZR lo <= y <= IZR hi -> (lo <= round_half_even y <= hi)%Z.
Proof.
  intros [Hlo Hhi]. unfold round_half_even.
  destruct (base_Int_part y) as [Hf1 Hf2].
  set (f := Int_part y) in *.
  assert (Hlof : (lo <= f)%Z).
  { apply Z.lt_succ_r. apply lt_IZR. rewrite succ_IZR. lra. }
  assert (Hfhi : (f <= hi)%Z) by (apply le_IZR; lra).
  destruct (Rlt_dec (y - IZR f) (1 / 2)); [lia|].
  assert (Hlt : (f < hi)%Z) by (apply lt_IZR; lra).
  destruct (Rlt_dec (1 / 2) (y - IZR f)); [lia|].
  destruct (Z.even f); lia.
Qed.

Lemma round2_bounds (x : R) : -100 <= x <= 100 -> -100 <= round2 x <= 100.
Proof.
  intros Hx. unfold round2.
  destruct (round_half_even_bounds (x * 100) (-10000) 10000) as [H1 H2].
  { lra. }
  apply IZR_le in H1, H2. lra.
Qed.

(** C1, as the code has it. The score that [calculate_similarity]
    computes for a pair of embeddings is 100 times their cosine, rounded
    to two decimals: whenever it is a number it lies between -100 and
    100 inclusive. No weight enters it and nothing is clamped. *)
Theorem similarity_score_range (cv_embedding job_embedding : vector) (s : R) :
  similarity_score cv_embedding job_embedding = Some (Finite s) ->
  -100 <= s <= 100.
Proof.
  unfold similarity_score.
  destruct (negb _); [discriminate|].
  destruct (map Q2R cv_embedding) as [|a cv] eqn:Hcv.
  - intros [= <-]. apply round2_bounds. lra.
  - destruct (Req_EM_T (norm (a :: cv)) 0) as [|Hx]; [discriminate|].
    destruct (Req_EM_T (norm (map Q2R job_embedding)) 0) as [|Hy];
      [discriminate|].
    intros [= <-]. apply round2_bounds.
    pose proof (cosine_bounds (a :: cv) (map Q2R job_embedding) Hx Hy) as Hcos.
    change (map (fun a0 : R => a0 / norm (a :: cv)) (a :: cv))
      with (a / norm (a :: cv) :: map (fun a0 : R => a0 / norm (a :: cv)) cv)
      in Hcos.
    lra.
Qed.

Lemma round_half_even_IZR (n : Z) : round_half_even (IZR n) = n.
Proof.
  destruct (round_half_even_bounds (IZR n) n n); [lra|lia].
Qed.

Lemma round2_hundredths (n : Z) (x : R) :
  x * 100 = IZR n -> round2 x = IZR n / 100.
Proof. intros H. unfold round2. by rewrite H, round_half_even_IZR. Qed.

Lemma norm_unit (c : R) : c * c = 1 -> norm [c; 0] = 1.
Proof.
  intros Hc. unfold norm, dot. simpl.
  replace (c * c + (0 * 0 + 0)) with 1 by lra. apply sqrt_1.
Qed.

(** Two unit vectors along the first axis: the score is 100 times the
    product of their signs. *)
Lemma axis_score (a b : Q) (n : Z) :
  Q2R a * Q2R a = 1 -> Q2R b * Q2R b = 1 ->
  Q2R a * Q2R b * 10000 = IZR n ->
  similarity_score [a; 0%Q] [b; 0%Q] = Some (Finite (IZR n / 100)).
Proof.
  intros Ha Hb Hn. unfold similarity_score. simpl.
  assert (H0 : Q2R 0 = 0) by (unfold Q2R; simpl; lra).
  rewrite H0, (norm_unit _ Ha), (norm_unit _ Hb).
  destruct (Req_EM_T 1 0) as [|_]; [lra|].
  do 2 f_equal. apply round2_hundredths.
  unfold dot. simpl. rewrite <- Hn. field.
Qed.

Lemma axis_similarity (a b : Q) (s : R) :
  Q2R a * Q2R a = 1 -> Q2R b * Q2R b = 1 ->
  Q2R a * Q2R b * 100 = s ->
  similarity [a; 0%Q] [b; 0%Q] = Some (Finite s).
Proof.
  intros Ha Hb Hs. unfold similarity. simpl.
  assert (H0 : Q2R 0 = 0) by (unfold Q2R; simpl; lra).
  rewrite H0, (norm_unit _ Ha), (norm_unit _ Hb).
  destruct (Req_EM_T 1 0) as [|_]; [lra|].
  do 2 f_equal. unfold dot. simpl. rewrite <- Hs. field.
Qed.

(** The embeddings (1, 0) and (-1, 0) point in opposite directions. *)
Example opposite_embeddings_similarity :
  similarity [1; 0]%Q [-1; 0]%Q = Some (Finite (-100)).
Proof. apply axis_similarity; unfold Q2R; simpl; lra. Qed.

Example opposite_embeddings_score :
  similarity_score [1; 0]%Q [-1; 0]%Q = Some (Finite (-100)).
Proof.
  replace (-100) with (IZR (-10000) / 100) by lra.
  apply axis_score; unfold Q2R; simpl; lra.
Qed.

Example equal_embeddings_score :
  similarity_score [1; 0]%Q [1; 0]%Q = Some (Finite 100).
Proof.
  replace 100 with (IZR 10000 / 100) by lra.
  apply axis_score; unfold Q2R; simpl; lra.
Qed.

Lemma similarity_score_range_witness :
  similarity_score [1; 0]%Q [1; 0]%Q = Some (Finite 100) /\
  -100 <= 100 <= 100.
Proof.
  split; [exact equal_embeddings_score|].
  exact (similarity_score_range [1; 0]%Q [1; 0]%Q 100 equal_embeddings_score).
Defined.

(** C1 as stated fails: for the opposite embeddings (1, 0) and (-1, 0)
    the local [similarity] of the handler is -100, below 0, and so is
    the rounded score; nothing is clamped. And no score reaches the
    caller: for a candidate and a posting that both exist the handler of
    this repository answers 500. *)
Lemma similarity_score_below_zero :
  similarity [1; 0]%Q [-1; 0]%Q = Some (Finite (-100)) /\
  similarity_score [1; 0]%Q [-1; 0]%Q = Some (Finite (-100)) /\
  ~ (0 <= -100 <= 100) /\
  (forall (encode : string -> vector) (cv_id job_id : string)
          (cv : cv_data) (job : job_data),
     calculate_similarity encode unit None cv_id job_id (Some cv) (Some job) =
       ServerError500).
Proof.
  split; [exact opposite_embeddings_similarity|].
  split; [exact opposite_embeddings_score|].
  split; [lra|].
  intros encode cv_id job_id cv job. unfold calculate_similarity.
  destruct (create_cv_embedding encode cv).1; [|reflexivity].
  destruct (create_job_embedding encode job).1; [|reflexivity].
  by destruct (similarity_score _ _).
Qed.

(* --------------------------------------------------------------------- *)
(* Further properties of the pairwise similarity                         *)
(* --------------------------------------------------------------------- *)

Lemma dot_comm (x y : list R) : dot x y = dot y x.
Proof.
  revert y. induction x as [|a x IH]; intros [|b y]; try reflexivity.
  specialize (IH y). unfold dot in *. simpl. rewrite IH. lra.
Qed.

(** The score does not depend on which of the two embeddings comes
    first. *)
Theorem similarity_symmetric (cv_embedding job_embedding : vector) :
  similarity_score cv_embedding job_embedding =
  similarity_score job_embedding cv_embedding.
Proof.
  unfold similarity_score.
  destruct (map Q2R cv_embedding) as [|a x]; 
    destruct (map Q2R job_embedding) as [|b y]; try reflexivity.
  rewrite (Nat.eqb_sym (length (b :: y))).
  destruct (negb _); [reflexivity|].
  destruct (Req_EM_T (norm (a :: x)) 0), (Req_EM_T (norm (b :: y)) 0);
    try reflexivity.
  by rewrite dot_comm.
Qed.

Lemma dot_self_pos (x : list R) :
  Exists (fun r => r <> 0) x -> 0 < dot x x.
Proof.
  induction 1 as [a x Ha|a x _ IH].
  - pose proof (dot_self_nonneg x). unfold dot in *. simpl.
    assert (0 < a * a) by nra. lra.
  - unfold dot in *. simpl. nra.
Qed.

Lemma Q2R_nonzero (v : vector) :
  Exists (fun a => ~ (a == 0)%Q) v -> Exists (fun r => r <> 0) (map Q2R v).
Proof.
  induction 1 as [a v Ha|a v _ IH]; simpl.
  - apply Exists_cons_hd. intros H. apply Ha.
    apply eqR_Qeq. rewrite H. unfold Q2R. simpl. lra.
  - by apply Exists_cons_tl.
Qed.

Lemma norm_pos (x : list R) : Exists (fun r => r <> 0) x -> 0 < norm x.
Proof. intros H. apply sqrt_lt_R0. by apply dot_self_pos. Qed.

(** An embedding with a non-zero component scores exactly 100 against
    itself. *)
Theorem self_similarity (embedding : vector) :
  Exists (fun a => ~ (a == 0)%Q) embedding ->
  similarity_score embedding embedding = Some (Finite 100).
Proof.
  intros Hnz%Q2R_nonzero. unfold similarity_score.
  rewrite Nat.eqb_refl. simpl negb. cbv iota.
  pose proof (norm_pos _ Hnz) as Hpos.
  destruct (map Q2R embedding) as [|a x] eqn:Hx.
  { by apply Exists_nil in Hnz. }
  destruct (Req_EM_T (norm (a :: x)) 0) as [H0|Hn]; [lra|].
  do 2 f_equal.
  replace 100 with (IZR 10000 / 100) by lra.
  apply round2_hundredths.
  rewrite dot_scaled by done.
  assert (Hsq : norm (a :: x) * norm (a :: x) = dot (a :: x) (a :: x)).
  { unfold norm. apply sqrt_sqrt, dot_self_nonneg. }
  rewrite Hsq. field. rewrite <- Hsq. nra.
Qed.

Lemma self_similarity_witness :
  similarity_score [3; 4]%Q [3; 4]%Q = Some (Finite 100).
Proof.
  apply self_similarity. apply Exists_cons_hd. discriminate.
Defined.

Lemma dot_scale_l (k : R) (x y : list R) :
  dot (map (Rmult k) x) y = k * dot x y.
Proof.
  revert y. induction x as [|a x IH]; intros [|b y].
  - unfold dot; simpl; lra.
  - unfold dot; simpl; lra.
  - unfold dot; simpl; lra.
  - specialize (IH y). unfold dot in *. simpl. rewrite IH. lra.
Qed.

Lemma norm_scale (k : R) (x : list R) :
  0 < k -> norm (map (Rmult k) x) = k * norm x.
Proof.
  intros Hk. unfold norm.
  rewrite dot_scale_l, (dot_comm x), dot_scale_l.
  replace (k * (k * dot x x)) with (k * k * dot x x) by lra.
  rewrite sqrt_mult_alt by nra.
  by rewrite sqrt_square by lra.
Qed.

Lemma normalize_scale (k n : R) (x : list R) :
  0 < k -> n <> 0 ->
  map (fun a => a / (k * n)) (map (Rmult k) x) = map (fun a => a / n) x.
Proof.
  intros Hk Hn. rewrite map_map. apply map_ext. intros a. field. lra.
Qed.

(** The score ignores the length of an embedding: multiplying every
    component of one embedding by the same positive factor leaves the
    score unchanged. *)
Theorem similarity_scale_invariant (c : Q) (cv_embedding job_embedding : vector) :
  (0 < c)%Q ->
  similarity_score (map (Qmult c) cv_embedding) job_embedding =
  similarity_score cv_embedding job_embedding.
Proof.
  intros Hc. apply Qlt_Rlt in Hc.
  replace (Q2R 0) with 0 in Hc by (unfold Q2R; simpl; lra).
  unfold similarity_score.
  assert (Hmap : map Q2R (map (Qmult c) cv_embedding) =
                 map (Rmult (Q2R c)) (map Q2R cv_embedding)).
  { rewrite !map_map. apply map_ext. intros a. apply Q2R_mult. }
  rewrite Hmap. rewrite (length_map (Rmult (Q2R c))).
  destruct (negb _); [reflexivity|].
  destruct (map Q2R cv_embedding) as [|a x]; [reflexivity|].
  change (map (Rmult (Q2R c)) (a :: x))
    with (Q2R c * a :: map (Rmult (Q2R c)) x).
  change (Q2R c * a :: map (Rmult (Q2R c)) x)
    with (map (Rmult (Q2R c)) (a :: x)).
  rewrite norm_scale by done.
  destruct (Req_EM_T (Q2R c * norm (a :: x)) 0) as [H0|Hn0];
    destruct (Req_EM_T (norm (a :: x)) 0) as [H1|Hn1]; try reflexivity.
  - exfalso. apply Rmult_integral in H0 as [H0|H0]; lra.
  - exfalso. apply Hn0. rewrite H1. lra.
  - destruct (Req_EM_T (norm (map Q2R job_embedding)) 0); [reflexivity|].
    by rewrite normalize_scale.
Qed.

Lemma similarity_scale_invariant_witness :
  similarity_score (map (Qmult 5) [1; 0]%Q) [1; 0]%Q = Some (Finite 100).
Proof.
  rewrite (similarity_scale_invariant 5 [1; 0]%Q [1; 0]%Q).
  - exact equal_embeddings_score.
  - reflexivity.
Defined.

(** The similarity endpoint of this repository never answers 200. It
    answers 404 for a missing candidate before it looks at the posting,
    404 for a missing posting, and 500 for every candidate and posting
    that both exist: the handler looks up [analyze_match_details] on the
    embedding service, which has no such method. *)
Theorem similarity_endpoint_errors (encode : string -> vector)
    (details : Type) (cv_id job_id : string) (cv : cv_data) (job : job_data)
    (any_job : option job_data) :
  calculate_similarity encode details None cv_id job_id None any_job =
    NotFound404 "CV bulunamadı" /\
  calculate_similarity encode details None cv_id job_id (Some cv) None =
    NotFound404 "İş ilanı bulunamadı" /\
  calculate_similarity encode details None cv_id job_id (Some cv) (Some job) =
    ServerError500.
Proof.
  split; [reflexivity|]. split; [reflexivity|].
  unfold calculate_similarity.
  destruct (create_cv_embedding encode cv).1; [|reflexivity].
  destruct (create_job_embedding encode job).1; [|reflexivity].
  by destruct (similarity_score _ _).
Qed.

End Cosine.
